(** * PDF_Text_Extractor: the extraction and sectioning pipeline of
    [main_dash_app.py], embedded as Rocq functions.

    Python strings are sequences of Unicode code points, so a [str] is a list
    of code points ([N]); indices are [Z] because [str.find] answers [-1] and
    slices accept negative bounds.  Dictionaries keep insertion order and are
    association lists.  The three engines the program calls (pdftotext,
    pdf2image, tesseract) and the two library routines [base64.b64decode] and
    [str.lower] are fields of a record of capabilities. *)

From Stdlib Require Import List ZArith NArith Lia Bool String Ascii.
Import ListNotations.

Local Open Scope Z_scope.

(* ================================================================== *)
(** ** Python strings *)

Module PyStr.

Definition char := N.
Definition str := list char.

Definition len (s : str) : Z := Z.of_nat (List.length s).

(** ASCII literals of the source, as code points. *)
Definition of_ascii (s : string) : str :=
  map N_of_ascii (list_ascii_of_string s).

(** [s.startswith(m)]. *)
Fixpoint startswith (s m : str) : bool :=
  match m, s with
  | [], _ => true
  | _ :: _, [] => false
  | c :: m', d :: s' => N.eqb c d && startswith s' m'
  end.

(** [s.endswith(m)]. *)
Definition endswith (s m : str) : bool := startswith (rev s) (rev m).

(** Lowest index at which [m] occurs in [s], if any. *)
Fixpoint find_nat (s m : str) : option nat :=
  if startswith s m then Some O
  else match s with
       | [] => None
       | _ :: s' => option_map S (find_nat s' m)
       end.

(** [s.find(m)]: the lowest index of an occurrence, [-1] when there is
    none. *)
Definition find (s m : str) : Z :=
  match find_nat s m with
  | Some i => Z.of_nat i
  | None => -1
  end.

(** A slice bound as CPython adjusts it: a negative bound counts from the
    end, and the result is clamped to [0 .. len]. *)
Definition adjust (n i : Z) : Z :=
  if i <? 0 then Z.max 0 (i + n) else Z.min i n.

(** [s[i:]]. *)
Definition slice_from (s : str) (i : Z) : str :=
  skipn (Z.to_nat (adjust (len s) i)) s.

(** [s[:i]]. *)
Definition slice_to (s : str) (i : Z) : str :=
  firstn (Z.to_nat (adjust (len s) i)) s.

(** [sep.join(parts)]. *)
Fixpoint join (sep : str) (parts : list str) : str :=
  match parts with
  | [] => []
  | [p] => p
  | p :: rest => p ++ sep ++ join sep rest
  end.

(** [c.isspace()]: the code points CPython treats as whitespace. *)
Definition isspace (c : char) : bool :=
  let c := Z.of_N c in
  ((9 <=? c) && (c <=? 13)) || ((28 <=? c) && (c <=? 32))
  || (c =? 133) || (c =? 160) || (c =? 5760)
  || ((8192 <=? c) && (c <=? 8202))
  || (c =? 8232) || (c =? 8233) || (c =? 8239) || (c =? 8287)
  || (c =? 12288).

Fixpoint lstrip (s : str) : str :=
  match s with
  | c :: s' => if isspace c then lstrip s' else s
  | [] => []
  end.

(** [s.strip()]: surrounding whitespace removed. *)
Definition strip (s : str) : str := rev (lstrip (rev (lstrip s))).

(** Truth value of a string: non-empty. *)
Definition truthy (s : str) : bool :=
  match s with [] => false | _ :: _ => true end.

(** [m] occurs in [s] as a substring. *)
Definition occurs (m s : str) : Prop :=
  exists pre post, s = pre ++ m ++ post.

(** [m] occurs in [s] at offset [length pre], and nowhere before. *)
Definition first_occurrence (m pre s : str) : Prop :=
  (exists post, s = pre ++ m ++ post) /\
  forall pre' post', s = pre' ++ m ++ post' ->
                     (List.length pre <= List.length pre')%nat.

End PyStr.
Import PyStr.

(* ================================================================== *)
(** ** Python dictionaries with string keys *)

Module PyDict.

(** What a section dictionary can hold: a string, or [None] as returned by
    [dict.get] on a missing key. *)
Inductive value := VNone | VStr (s : str).

Definition dict := list (string * value).

(** [d[k] = v]: an existing key keeps its place, a new one goes last. *)
Fixpoint setitem (d : dict) (k : string) (v : value) : dict :=
  match d with
  | [] => [(k, v)]
  | (k', v') :: d' =>
      if String.eqb k' k then (k', v) :: d' else (k', v') :: setitem d' k v
  end.

(** [d.get(k)]. *)
Fixpoint get (d : dict) (k : string) : value :=
  match d with
  | [] => VNone
  | (k', v') :: d' => if String.eqb k' k then v' else get d' k
  end.

(** [k in d]. *)
Definition mem (d : dict) (k : string) : bool :=
  existsb (fun kv => String.eqb (fst kv) k) d.

(** [d.update(other)]. *)
Definition update (d other : dict) : dict :=
  fold_left (fun acc kv => setitem acc (fst kv) (snd kv)) other d.

Definition keys (d : dict) : list string := map fst d.
Definition values (d : dict) : list value := map snd d.

End PyDict.
Import PyDict.

(* ================================================================== *)
(** ** Section segmentation *)

Module Segmentation.

Local Open Scope N_scope.
Local Open Scope string_scope.

(** The literal marker phrases of [get_pathology_body_parts]. *)
Definition macro_marker : str :=
  [0x5ea; 0x5d0; 0x5d5; 0x5e8; 0x20; 0x5de; 0x5d0; 0x5e7; 0x5e8; 0x5d5;
   0x5e1; 0x5e7; 0x5d5; 0x5e4; 0x5d9; 0x202a; 0x3a; 0x202c; 0x202c].
Definition diagnosis_marker : str :=
  [0x5d0; 0x5d1; 0x5d7; 0x5e0; 0x5d4; 0x202a; 0x3a; 0x202c; 0x202c].
Definition prev_tests_marker : str :=
  [0x202b; 0x5d1; 0x5d3; 0x5d9; 0x5e7; 0x5d5; 0x5ea; 0x20; 0x5e7; 0x5d5;
   0x5d3; 0x5de; 0x5d5; 0x5ea; 0x202a; 0x3a].
Definition clinical_info_marker : str :=
  [0x202b; 0x5e4; 0x5e8; 0x5d8; 0x5d9; 0x5dd; 0x20; 0x5e7; 0x5dc; 0x5d9;
   0x5e0; 0x5d9; 0x5d9; 0x5dd; 0x202a; 0x3a].

(** The literals of [get_partial_content]: the "body begins" phrases, in
    the order of the list [prefix_options], and the print-date phrase. *)
Definition prefix_clinical : str := clinical_info_marker.
Definition prefix_prev_tests : str :=
  [0x5d1; 0x5d3; 0x5d9; 0x5e7; 0x5d5; 0x5ea; 0x20; 0x5e7; 0x5d5; 0x5d3;
   0x5de; 0x5d5; 0x5ea; 0x202a; 0x3a; 0x202c; 0x202c].
Definition prefix_diagnosis : str :=
  [0x202b; 0x5d0; 0x5d1; 0x5d7; 0x5e0; 0x5d4; 0x202a; 0x3a; 0x202c; 0x202c].
Definition prefix_options : list str :=
  [prefix_clinical; prefix_prev_tests; prefix_diagnosis].
Definition postfix_marker : str :=
  [0x5ea; 0x5d0; 0x5e8; 0x5d9; 0x5da; 0x20; 0x5d4; 0x5d3; 0x5e4; 0x5e1;
   0x5d4; 0x202a; 0x3a; 0x202c; 0x202c].

Local Close Scope N_scope.
Local Open Scope Z_scope.

(** The local variables of [get_pathology_body_parts] when it returns;
    [body1] .. [body4] are the successive values of the variable [body]
    after each of the four blocks. *)
Record body_locals := {
  macro_prefix_index : Z;
  body1 : str;
  diagnosis_prefix_index : Z;
  body2 : str;
  prev_tests_prefix_index : Z;
  body3 : str;
  clinical_info_prefix_index : Z;
  body4 : str;
  body_parts_dict : dict;
  ans_body_parts_dict : dict
}.

Definition run_pathology_body_parts (body : str) : body_locals :=
  let body_parts_dict : dict := [] in
  (* macro_desc *)
  let macro_prefix_index := find body macro_marker in
  let '(body_parts_dict, body1) :=
    if negb (macro_prefix_index =? -1) then
      (setitem body_parts_dict "Macroscopic Description"
               (VStr (slice_from body macro_prefix_index)),
       slice_to body macro_prefix_index)
    else (body_parts_dict, body) in
  (* diagnosis *)
  let diagnosis_prefix_index := find body1 diagnosis_marker in
  let '(body_parts_dict, body2) :=
    if negb (diagnosis_prefix_index =? -1) then
      (setitem body_parts_dict "Diagnosis"
               (VStr (slice_from body1 diagnosis_prefix_index)),
       slice_to body1 diagnosis_prefix_index)
    else (body_parts_dict, body1) in
  (* prev_tests *)
  let prev_tests_prefix_index := find body2 prev_tests_marker in
  let '(body_parts_dict, body3) :=
    if negb (prev_tests_prefix_index =? -1) then
      (setitem body_parts_dict "Previous Tests"
               (VStr (slice_from body2 prev_tests_prefix_index)),
       slice_to body2 prev_tests_prefix_index)
    else (body_parts_dict, body2) in
  (* clinical_info *)
  let clinical_info_prefix_index := find body3 clinical_info_marker in
  let '(body_parts_dict, body4) :=
    if negb (clinical_info_prefix_index =? -1) then
      (setitem body_parts_dict "Clinical Information"
               (VStr (slice_from body3 clinical_info_prefix_index)),
       slice_to body3 clinical_info_prefix_index)
    else (body_parts_dict, body3) in
  let ans : dict := [] in
  let ans :=
    if negb (clinical_info_prefix_index =? -1) then
      setitem ans "Clinical Information"
              (get body_parts_dict "Clinical Information")
    else ans in
  let ans :=
    if negb (prev_tests_prefix_index =? -1) then
      setitem ans "Previous Tests" (get body_parts_dict "Previous Tests")
    else ans in
  let ans :=
    if negb (diagnosis_prefix_index =? -1) then
      setitem ans "Diagnosis" (get body_parts_dict "Diagnosis")
    else ans in
  let ans :=
    if negb (macro_prefix_index =? -1) then
      setitem ans "Macroscopic Description"
              (get body_parts_dict "Macroscopic Description")
    else ans in
  {| macro_prefix_index := macro_prefix_index;
     body1 := body1;
     diagnosis_prefix_index := diagnosis_prefix_index;
     body2 := body2;
     prev_tests_prefix_index := prev_tests_prefix_index;
     body3 := body3;
     clinical_info_prefix_index := clinical_info_prefix_index;
     body4 := body4;
     body_parts_dict := body_parts_dict;
     ans_body_parts_dict := ans |}.

Definition get_pathology_body_parts (body : str) : dict :=
  ans_body_parts_dict (run_pathology_body_parts body).

(** The loop over [prefix_options]: the first phrase of the list that
    occurs decides [header] and [body], and ends the loop. *)
Fixpoint split_header (original_content : str) (options : list str)
         (header body : str) : str * str :=
  match options with
  | [] => (header, body)
  | p :: options' =>
      let prefix_index := find original_content p in
      if negb (prefix_index =? -1) then
        (slice_to original_content prefix_index,
         slice_from original_content prefix_index)
      else split_header original_content options' header body
  end.

(** The local variables of [get_partial_content] when it returns;
    [body0] is [body] as the loop leaves it, [body] is what is handed to
    [get_pathology_body_parts]. *)
Record content_locals := {
  header : str;
  body0 : str;
  postfix_index : Z;
  footer : str;
  body : str;
  body_parts : dict;
  z : dict
}.

Definition run_partial_content (original_content : str) : content_locals :=
  let '(header, body0) :=
    split_header original_content prefix_options [] [] in
  let postfix_index := find body0 postfix_marker in
  let footer := slice_from body0 postfix_index in
  let body := slice_to body0 postfix_index in
  let body_parts := get_pathology_body_parts body in
  let head_foot : dict := [("General Information", VStr header)] in
  let z := head_foot in
  let z := update z body_parts in
  let z := setitem z "Document Footer Information" (VStr footer) in
  {| header := header; body0 := body0; postfix_index := postfix_index;
     footer := footer; body := body; body_parts := body_parts; z := z |}.

Definition get_partial_content (original_content : str) : dict :=
  z (run_partial_content original_content).

(** The text the map does not keep: what is left of [body] once the four
    blocks of [get_pathology_body_parts] have cut their sections off. *)
Definition residue (original_content : str) : str :=
  body4 (run_pathology_body_parts
           (body (run_partial_content original_content))).

End Segmentation.
Import Segmentation.

(* ================================================================== *)
(** ** Text extraction and the two upload callbacks *)

Module Extraction.

Definition bytes := list Byte.byte.

(** The engines the callbacks reach, as they appear in a call log. *)
Inductive call := CallPdftotext | CallPdf2image | CallTesseract.

(** The exceptions that can leave a callback, named after the place that
    raises them: [ValueError] is the failed unpacking of
    [file_content.split(',')], [Base64Error] is whatever
    [base64.b64decode] raises ([binascii.Error] or [ValueError]; in Python
    both are instances of [ValueError]), and the last three are the errors
    of the engines. *)
Inductive exn :=
| PreventUpdate
| ValueError
| Base64Error
| PdftotextError
| Pdf2imageError
| TesseractError.

(** A computation: the engines it called, in order, and either the
    exception that ended it or its result. *)
Definition M (A : Type) : Type := (list call * (exn + A))%type.

Definition ret {A} (a : A) : M A := ([], inr a).
Definition raise {A} (e : exn) : M A := ([], inl e).
Definition bind {A B} (m : M A) (k : A -> M B) : M B :=
  match m with
  | (l, inl e) => (l, inl e)
  | (l, inr a) => let '(l', r) := k a in (l ++ l', r)
  end.
(** One call of an engine that fails with [e] when it has no answer. *)
Definition invoke {A} (c : call) (e : exn) (r : option A) : M A :=
  ([c], match r with Some a => inr a | None => inl e end).

Definition log {A} (m : M A) : list call := fst m.
Definition outcome {A} (m : M A) : exn + A := snd m.

Notation "x <- m ;; k" := (bind m (fun x => k))
  (at level 61, m at next level, right associativity).

Fixpoint mapM {A B} (f : A -> M B) (l : list A) : M (list B) :=
  match l with
  | [] => ret []
  | a :: l' => b <- f a ;; bs <- mapM f l' ;; ret (b :: bs)
  end.

(** What the program takes from its libraries; a missing answer is the
    library raising. *)
Record Capabilities (Image : Type) := {
  b64decode : str -> option bytes;
  lower : str -> str;
  pdftotext_PDF : bytes -> option (list str);
  convert_from_bytes : bytes -> option (list Image);
  image_to_string : Image -> string -> option str
}.
Arguments b64decode {Image}.
Arguments lower {Image}.
Arguments pdftotext_PDF {Image}.
Arguments convert_from_bytes {Image}.
Arguments image_to_string {Image}.

(** [s.split(sep)] for a separator of one character. *)
Fixpoint split (sep : char) (s : str) : list str :=
  match s with
  | [] => [[]]
  | c :: s' =>
      if N.eqb c sep then [] :: split sep s'
      else match split sep s' with
           | p :: ps => (c :: p) :: ps
           | [] => [[c]]
           end
  end.

Definition newline : str := [10%N].
Definition comma : char := 44%N.

Section WithCapabilities.

Context {Image : Type} (caps : Capabilities Image).

Definition pdf_to_images (pdf_b : bytes) : M (list Image) :=
  invoke CallPdf2image Pdf2imageError (convert_from_bytes caps pdf_b).

Definition extract_text_from_images (images : list Image) : M str :=
  text_per_page <-
    mapM (fun image =>
            invoke CallTesseract TesseractError
                   (image_to_string caps image "heb+eng")) images ;;
  ret (join newline text_per_page).

Definition extract_text_from_pdf (file_content : bytes) : M str :=
  pdf <- invoke CallPdftotext PdftotextError
                (pdftotext_PDF caps file_content) ;;
  ret (join (newline ++ newline) pdf).

(** [content_type, content_string = file_content.split(',')] followed
    by [base64.b64decode(content_string)]. *)
Definition decode_upload (file_content : str) : M bytes :=
  match split comma file_content with
  | [content_type; content_string] =>
      match b64decode caps content_string with
      | Some decoded => ret decoded
      | None => raise Base64Error
      end
  | _ => raise ValueError
  end.

(** The test [not text.strip() or len(text) < 20]. *)
Definition needs_ocr (text : str) : bool :=
  negb (truthy (strip text)) || (len text <? 20).

(** The part the two callbacks share: from the upload to the text. *)
Definition upload_text (file_content : option str) (file_name : str)
  : M str :=
  match file_content with
  | None => raise PreventUpdate
  | Some file_content =>
      decoded <- decode_upload file_content ;;
      if endswith (lower caps file_name) (of_ascii ".pdf") then
        text <- extract_text_from_pdf decoded ;;
        if needs_ocr text then
          images <- pdf_to_images decoded ;;
          extract_text_from_images images
        else ret text
      else raise PreventUpdate
  end.

Definition update_output_tab1 (file_content : option str)
           (file_name : str) : M str :=
  upload_text file_content file_name.

(** [update_output_tab2] up to [ans_parts]; the cards built from it
    belong to the page layout. *)
Definition update_output_tab2 (file_content : option str)
           (file_name : str) : M dict :=
  text <- upload_text file_content file_name ;;
  let text := of_ascii "'" ++ [8235%N] ++ of_ascii "'" ++ text
              ++ of_ascii "'" ++ [8236%N] ++ of_ascii "'" in
  ret (get_partial_content text).

End WithCapabilities.

End Extraction.
Import Extraction.

(* ================================================================== *)
(** ** Vocabulary for the statements *)

Module Reading.

(** One block of [get_pathology_body_parts]: what is left of the window
    [w] when [find] answered [i] ... *)
Definition cut (w : str) (i : Z) : str :=
  if negb (i =? -1) then slice_to w i else w.

(** ... and the entry the block contributes. *)
Definition entry (name : string) (w : str) (i : Z) : dict :=
  if negb (i =? -1) then [(name, VStr (slice_from w i))] else [].

(** The body sections in the order the result lists them, each with the
    phrase [get_pathology_body_parts] searches for. *)
Definition body_sections : list (string * str) :=
  [("Clinical Information"%string, clinical_info_marker);
   ("Previous Tests"%string, prev_tests_marker);
   ("Diagnosis"%string, diagnosis_marker);
   ("Macroscopic Description"%string, macro_marker)].

Definition prefix_of (w b : str) : Prop := exists post, b = w ++ post.

(** One step of the inner segmentation, in the words of the design: the
    phrase [m] is looked for in the window [w]; if it is not there the
    map [d] gets no entry [name] and the window stays; if it is, the entry
    is the text from the first occurrence to the end of the window, and
    the next window [w'] is what comes before it. *)
Definition peels (m w : str) (d : dict) (name : string) (w' : str) : Prop :=
  (~ occurs m w /\ mem d name = false /\ w' = w) \/
  (exists content,
      mem d name = true /\ get d name = VStr content /\
      w = w' ++ content /\ first_occurrence m w' w /\
      startswith content m = true).

(** The values of [z] are strings which, put end to end in the order
    of the map, give [text]. *)
Definition reconstructs (z : dict) (text : str) : Prop :=
  exists pieces, values z = map VStr pieces /\ List.concat pieces = text.

(** The text of the entry a block contributes, if any. *)
Definition entry_text (w : str) (i : Z) : list str :=
  if negb (i =? -1) then [slice_from w i] else [].

(** [hdr] and [bdy] split [text] in front of the "body begins" phrase that
    occurs earliest in the text. *)
Definition splits_at_earliest_marker (text hdr bdy : str) : Prop :=
  text = hdr ++ bdy /\
  (exists p, In p prefix_options /\ startswith bdy p = true) /\
  forall q pre post,
    In q prefix_options -> text = pre ++ q ++ post ->
    (List.length hdr <= List.length pre)%nat.

(** [ftr] is what a search of the whole of [text] for the print-date
    phrase would make the footer: the text from its first occurrence. *)
Definition footer_found_in (text ftr : str) : Prop :=
  forall pre, first_occurrence postfix_marker pre text -> text = pre ++ ftr.

(** Sample texts. *)

(** A report whose first section is the diagnosis, with a print date. *)
Definition diagnosis_report : str :=
  of_ascii "h" ++ prefix_diagnosis ++ of_ascii "abc"
  ++ postfix_marker ++ of_ascii "f".

(** A report with clinical information and a print date. *)
Definition clinical_report : str :=
  of_ascii "h" ++ clinical_info_marker ++ of_ascii "abc"
  ++ postfix_marker ++ of_ascii "f".

(** A report with clinical information and no print date. *)
Definition undated_report : str := clinical_info_marker ++ of_ascii "abc".

(** The diagnosis phrase in front of the clinical-information phrase. *)
Definition diagnosis_first_report : str :=
  prefix_diagnosis ++ of_ascii "x" ++ prefix_clinical ++ of_ascii "y".

(** A print date and none of the "body begins" phrases. *)
Definition unmarked_dated_text : str :=
  of_ascii "x" ++ postfix_marker ++ of_ascii "y".

(** Lower-casing of the ASCII letters. *)
Definition ascii_lower (s : str) : str :=
  map (fun c => if ((65 <=? c) && (c <=? 90))%N then (c + 32)%N else c) s.

(** Engines for the examples: a PDF whose text layer has the pages
    [native] and whose page images are read by OCR as [scanned]. *)
Definition sample_caps (native scanned : list str) : Capabilities str :=
  {| b64decode := fun _ => Some [];
     lower := ascii_lower;
     pdftotext_PDF := fun _ => Some native;
     convert_from_bytes := fun _ => Some scanned;
     image_to_string := fun image _ => Some image |}.

Definition sample_upload : str :=
  of_ascii "data:application/pdf;base64,JVBERi0=".

(** Nineteen letters and a space. *)
Definition padded_text : str := of_ascii "aaaaaaaaaaaaaaaaaaa ".

(** The claim about the separator of the OCR pages, as the design words
    it: a blank line between consecutive pages. *)
Definition blank_line : str := newline ++ newline.

End Reading.
Import Reading.

(* ================================================================== *)
(** ** Saving the output *)

Module Saving.

(** The values a callback receives for a component property: what JSON
    can hold.  Numbers are integers here; the code treats every value that
    is neither a string, a list nor a dictionary alike. *)
#[local] Unset Elimination Schemes.
Inductive pyval :=
| PNone
| PBool (b : bool)
| PInt (n : Z)
| PStr (s : str)
| PList (items : list pyval)
| PDict (items : list (string * pyval)).
#[local] Set Elimination Schemes.

(** Truth value, as [if not text] tests it. *)
Definition truthy_val (v : pyval) : bool :=
  match v with
  | PNone => false
  | PBool b => b
  | PInt n => negb (n =? 0)
  | PStr s => truthy s
  | PList items => match items with [] => false | _ :: _ => true end
  | PDict items => match items with [] => false | _ :: _ => true end
  end.

(** The inner function [recurse] of [extract_children_values]; the list
    [result] it appends to is passed in and handed back. *)
Fixpoint recurse (item : pyval) (result : list str) : list str :=
  match item with
  | PDict d =>
      (fix items (d : list (string * pyval)) (result : list str) :=
         match d with
         | [] => result
         | (key, value) :: d' =>
             items d'
               (match value with
                | PStr s =>
                    if String.eqb key "children" then result ++ [s]
                    else result
                | PDict _ | PList _ => recurse value result
                | _ => result
                end)
         end) d result
  | PList l =>
      (fix subs (l : list pyval) (result : list str) :=
         match l with
         | [] => result
         | sub_item :: l' => subs l' (recurse sub_item result)
         end) l result
  | _ => result
  end.

Definition extract_children_values (data : pyval) : str :=
  join newline (recurse data []).

(** [s.replace(old, new)] for a non-empty [old]: the occurrences of [old]
    are replaced from left to right, each search starting behind the
    previous occurrence; [skip] counts the characters of an occurrence
    still to be passed over. *)
Fixpoint replace_from (old new : str) (skip : nat) (s : str) : str :=
  match s with
  | [] => []
  | c :: s' =>
      match skip with
      | S k => replace_from old new k s'
      | O =>
          if startswith s old
          then new ++ replace_from old new (List.length old - 1) s'
          else c :: replace_from old new O s'
      end
  end.

(** [s.replace(old, new)]; with an empty [old], [new] goes in front of
    every character and at the end. *)
Definition replace (s old new : str) : str :=
  match old with
  | [] => new ++ List.concat (map (fun c => c :: new) s)
  | _ :: _ => replace_from old new O s
  end.

Definition br : str := of_ascii "<br>".

(** The dictionary handed to the download component. *)
Record download := { content : str; filename : string }.

Definition save_text_tab1 (n_clicks : Z) (text : option str)
  : exn + download :=
  match text with
  | None => inl PreventUpdate
  | Some text =>
      if negb (truthy text) then inl PreventUpdate
      else
        let plain_text := replace text br newline in
        inr {| content := plain_text;
               filename := "extracted_text_tab1.txt" |}
  end.

Definition save_text_tab2 (n_clicks : Z) (text : pyval) : exn + download :=
  if negb (truthy_val text) then inl PreventUpdate
  else
    let text := extract_children_values text in
    let plain_text1 := replace text br newline in
    inr {| content := plain_text1; filename := "extracted_text_tab2.txt" |}.

End Saving.
Import Saving.

(* ================================================================== *)
(** ** The children of the pathology tab *)

Module Layout.

(** The exceptions of this part of [update_output_tab2]. *)
Inductive py_exn := KeyError | TypeError | ListValueError.

(** A card of the new output: [CardHeader] and [CardBody] texts; the
    styles are constants of the page. *)
Record card := { card_title : str; card_content : str }.

(** A child of the tab: one received from the page, or the [html.Div] the
    callback has just built from its cards. *)
Inductive component := Received (j : pyval) | Built (cards : list card).

(** What the callback returns: the list of children, or the new [Div]
    alone. *)
Inductive tab2_output :=
| Children (l : list component)
| Single (cards : list card).

(** [d[key]] on a dictionary. *)
Fixpoint lookup (d : list (string * pyval)) (key : string) : option pyval :=
  match d with
  | [] => None
  | (k, v) :: d' => if String.eqb k key then Some v else lookup d' key
  end.

(** [child[key]]: only a dictionary that has the key answers. *)
Definition subscript (child : pyval) (key : string) : py_exn + pyval :=
  match child with
  | PDict d =>
      match lookup d key with
      | Some v => inr v
      | None => inl KeyError
      end
  | _ => inl TypeError
  end.

Fixpoint str_eqb (a b : str) : bool :=
  match a, b with
  | [], [] => true
  | c :: a', d :: b' => N.eqb c d && str_eqb a' b'
  | _, _ => false
  end.

(** [v == 'Div']. *)
Definition is_Div (v : pyval) : bool :=
  match v with
  | PStr s => str_eqb s (of_ascii "Div")
  | _ => false
  end.

(** [f"{content}"]. *)
Definition format_value (v : value) : str :=
  match v with
  | VStr s => s
  | VNone => of_ascii "None"
  end.

(** The cards built from [ans_parts.items()]. *)
Definition new_cards (ans_parts : dict) : list card :=
  map (fun kv => {| card_title := of_ascii (fst kv);
                    card_content := format_value (snd kv) |}) ans_parts.

Section WithEquality.

(** Python's [==] on received values. *)
Variable eqv : pyval -> pyval -> bool.

(** [l.remove(x)]: the first item equal to [x] goes; without one the call
    fails. *)
Fixpoint list_remove (x : pyval) (l : list pyval) : option (list pyval) :=
  match l with
  | [] => None
  | y :: l' =>
      if eqv y x then Some l' else option_map (cons y) (list_remove x l')
  end.

(** The loop over [tab2_children]: [rest] is what is still to be visited
    of the list [whole]. *)
Fixpoint remove_first_div (whole rest : list pyval)
  : py_exn + list pyval :=
  match rest with
  | [] => inr whole
  | child :: rest' =>
      match subscript child "type" with
      | inl e => inl e
      | inr t =>
          if is_Div t then
            match list_remove child whole with
            | Some l => inr l
            | None => inl ListValueError
            end
          else remove_first_div whole rest'
      end
  end.

(** The end of [update_output_tab2], from [new_div] on.  Iterating over a
    true value that is not a list ends in a [TypeError]: a dictionary and a
    string yield strings, which have no ['type'], and the others cannot be
    iterated. *)
Definition place_new_div (tab2_children : pyval) (new_div : list card)
  : py_exn + tab2_output :=
  if truthy_val tab2_children then
    match tab2_children with
    | PList l =>
        match remove_first_div l l with
        | inl e => inl e
        | inr l' => inr (Children (map Received l' ++ [Built new_div]))
        end
    | _ => inl TypeError
    end
  else inr (Single new_div).

End WithEquality.

(** Structural equality of received values. *)
Fixpoint pyval_eqb (a b : pyval) : bool :=
  match a, b with
  | PNone, PNone => true
  | PBool x, PBool y => Bool.eqb x y
  | PInt x, PInt y => Z.eqb x y
  | PStr x, PStr y => str_eqb x y
  | PList x, PList y =>
      (fix go (x y : list pyval) :=
         match x, y with
         | [], [] => true
         | a :: x', b :: y' => pyval_eqb a b && go x' y'
         | _, _ => false
         end) x y
  | PDict x, PDict y =>
      (fix go (x y : list (string * pyval)) :=
         match x, y with
         | [], [] => true
         | (k, a) :: x', (k', b) :: y' =>
             String.eqb k k' && pyval_eqb a b && go x' y'
         | _, _ => false
         end) x y
  | _, _ => false
  end.

End Layout.
Import Layout.

(* ================================================================== *)
(** ** Vocabulary for the further statements *)

Module Reading2.

(** The strings [extract_children_values] collects, as a function of the
    data alone: going through the data depth first, the string values of
    the key ['children'], in the order met. *)
Fixpoint children_strings (item : pyval) : list str :=
  match item with
  | PDict d =>
      (fix items (d : list (string * pyval)) :=
         match d with
         | [] => []
         | (key, value) :: d' =>
             (match value with
              | PStr s => if String.eqb key "children" then [s] else []
              | PDict _ | PList _ => children_strings value
              | _ => []
              end) ++ items d'
         end) d
  | PList l =>
      (fix subs (l : list pyval) :=
         match l with
         | [] => []
         | sub_item :: l' => children_strings sub_item ++ subs l'
         end) l
  | _ => []
  end.

(** [s] is the string value of a key ['children'] that can be reached from
    [item] through dictionary values and list items that are themselves
    dictionaries or lists. *)
Inductive exported : pyval -> str -> Prop :=
| exported_here d s :
    In ("children"%string, PStr s) d -> exported (PDict d) s
| exported_dict_dict d key d' s :
    In (key, PDict d') d -> exported (PDict d') s -> exported (PDict d) s
| exported_dict_list d key l s :
    In (key, PList l) d -> exported (PList l) s -> exported (PDict d) s
| exported_item l v s :
    In v l -> exported v s -> exported (PList l) s.

(** A child that is a dictionary whose ['type'] is ['Div']. *)
Definition div_child (j : pyval) : bool :=
  match subscript j "type" with
  | inr t => is_Div t
  | inl _ => false
  end.

(** A child that is a dictionary with a ['type'] other than ['Div']. *)
Definition other_child (j : pyval) : bool :=
  match subscript j "type" with
  | inr t => negb (is_Div t)
  | inl _ => false
  end.

(** The number of [Div] children of the tab. *)
Definition is_div_component (c : component) : bool :=
  match c with
  | Received j => div_child j
  | Built _ => true
  end.

(** The text handed to the segmentation by [update_output_tab2]. *)
Definition wrap (text : str) : str :=
  of_ascii "'" ++ [8235%N] ++ of_ascii "'" ++ text
  ++ of_ascii "'" ++ [8236%N] ++ of_ascii "'".

(** Engines for the examples that can fail: pdftotext answers [native],
    pdf2image answers [scanned], and tesseract fails on an empty image. *)
Definition failing_caps (native scanned : option (list str))
  : Capabilities str :=
  {| b64decode := fun _ => Some [];
     lower := ascii_lower;
     pdftotext_PDF := fun _ => native;
     convert_from_bytes := fun _ => scanned;
     image_to_string := fun image _ =>
                          if truthy image then Some image else None |}.

(** A component as the page sends it. *)
Definition sample_component (type : string) (text : string) : pyval :=
  PDict [("props"%string, PDict [("children"%string, PStr (of_ascii text))]);
         ("type"%string, PStr (of_ascii type))].

(** A report whose first section is the previous tests, with a print
    date. *)
Definition previous_tests_report : str :=
  of_ascii "h" ++ prefix_prev_tests ++ of_ascii "abc"
  ++ postfix_marker ++ of_ascii "f".

(** A page of text with none of the phrases. *)
Definition plain_page : str := of_ascii "a page of text without any phrase".

End Reading2.
Import Reading2.

(* ================================================================== *)
(** ** Facts about [find] and slices *)

Section StringFacts.

Implicit Types s m pre post : str.

Lemma startswith_app m post : startswith (m ++ post) m = true.
Proof.
  induction m as [|c m IH]; simpl; [now destruct post|].
  now rewrite N.eqb_refl, IH.
Qed.

Lemma startswith_inv s m :
  startswith s m = true -> exists post, s = m ++ post.
Proof.
  revert s; induction m as [|c m IH]; intros s H.
  - now exists s.
  - destruct s as [|d s]; simpl in H; [discriminate|].
    apply andb_true_iff in H as [Hc Hs].
    apply N.eqb_eq in Hc; subst d.
    destruct (IH _ Hs) as [post ->]. now exists post.
Qed.

Lemma startswith_length s m :
  startswith s m = true -> (List.length m <= List.length s)%nat.
Proof.
  intros H. destruct (startswith_inv _ _ H) as [post ->].
  rewrite length_app. lia.
Qed.

Lemma skipn_app_exact pre s : skipn (List.length pre) (pre ++ s) = s.
Proof. induction pre; simpl; auto. Qed.

Lemma firstn_app_exact pre s : firstn (List.length pre) (pre ++ s) = pre.
Proof. induction pre; simpl; f_equal; auto. Qed.

(** What [find_nat] promises when it answers an index. *)
Lemma find_nat_nil m :
  find_nat [] m = if startswith [] m then Some O else None.
Proof. reflexivity. Qed.

Lemma find_nat_cons d s m :
  find_nat (d :: s) m =
  if startswith (d :: s) m then Some O else option_map S (find_nat s m).
Proof. reflexivity. Qed.

(** What [find_nat] promises when it answers an index. *)
Lemma find_nat_Some s m i :
  find_nat s m = Some i ->
  (i <= List.length s)%nat /\
  startswith (skipn i s) m = true /\
  forall j, (j < i)%nat -> startswith (skipn j s) m = false.
Proof.
  revert i; induction s as [|d s IH]; intros i.
  - rewrite find_nat_nil. destruct (startswith [] m) eqn:E; [|discriminate].
    intros [= <-]. repeat split; auto. intros j Hj; lia.
  - rewrite find_nat_cons. destruct (startswith (d :: s) m) eqn:E.
    + intros [= <-]. repeat split; [simpl; lia|exact E|]. intros j Hj; lia.
    + destruct (find_nat s m) as [k|] eqn:F; simpl; [|discriminate].
      intros [= <-]. destruct (IH k eq_refl) as (Hk & Hs & Hlt).
      repeat split; [lia|exact Hs|].
      intros [|j] Hj; [exact E|]. apply Hlt. lia.
Qed.

(** ... and when it answers none. *)
Lemma find_nat_None s m :
  find_nat s m = None -> forall j, startswith (skipn j s) m = false.
Proof.
  induction s as [|d s IH].
  - rewrite find_nat_nil. destruct (startswith [] m) eqn:E; [discriminate|].
    intros _ j. now rewrite skipn_nil.
  - rewrite find_nat_cons.
    destruct (startswith (d :: s) m) eqn:E; [discriminate|].
    destruct (find_nat s m) eqn:F; simpl; [discriminate|].
    intros _ [|j]; [exact E|]. now apply IH.
Qed.

Lemma find_range s m : find s m = -1 \/ 0 <= find s m <= len s.
Proof.
  unfold find, len. destruct (find_nat s m) as [i|] eqn:F; [right|now left].
  apply find_nat_Some in F. lia.
Qed.

Lemma adjust_same n i : 0 <= i <= n -> adjust n i = i.
Proof. unfold adjust. intros H. destruct (i <? 0) eqn:E; lia. Qed.

(** The two slices at one bound always make up the string again, also at
    a negative bound. *)
Lemma slice_to_from s i : slice_to s i ++ slice_from s i = s.
Proof. unfold slice_to, slice_from. apply firstn_skipn. Qed.

Lemma occurs_startswith s m :
  occurs m s <-> exists j, startswith (skipn j s) m = true.
Proof.
  split.
  - intros (pre & post & ->). exists (List.length pre).
    rewrite skipn_app_exact. apply startswith_app.
  - intros (j & H). destruct (startswith_inv _ _ H) as [post E].
    exists (firstn j s), post. now rewrite <- E, firstn_skipn.
Qed.

(** [find] answers [-1] exactly when the phrase does not occur. *)
Lemma find_absent s m : find s m = -1 <-> ~ occurs m s.
Proof.
  unfold find. destruct (find_nat s m) as [i|] eqn:F; split.
  - lia.
  - intros H. exfalso. apply H. apply occurs_startswith.
    exists i. now apply find_nat_Some in F.
  - intros _ H. apply occurs_startswith in H as [j H].
    now rewrite (find_nat_None _ _ F) in H.
  - reflexivity.
Qed.

(** When [find] answers an index, the slices at that index are the text
    before the first occurrence and the text from it on. *)
Lemma find_cut s m :
  find s m <> -1 ->
  first_occurrence m (slice_to s (find s m)) s /\
  startswith (slice_from s (find s m)) m = true /\
  len (slice_to s (find s m)) = find s m.
Proof.
  unfold find, slice_to, slice_from, len.
  destruct (find_nat s m) as [i|] eqn:F; [intros _|congruence].
  destruct (find_nat_Some _ _ _ F) as (Hi & Hs & Hlt).
  rewrite adjust_same by (unfold len; lia). rewrite Nat2Z.id.
  assert (Hl : List.length (firstn i s) = i) by (rewrite length_firstn; lia).
  repeat split.
  - destruct (startswith_inv _ _ Hs) as [post E].
    exists post. now rewrite <- E, firstn_skipn.
  - intros pre' post' E. rewrite Hl.
    destruct (Nat.le_gt_cases i (List.length pre')) as [|Hj]; [assumption|].
    specialize (Hlt _ Hj). rewrite E, skipn_app_exact in Hlt.
    now rewrite startswith_app in Hlt.
  - exact Hs.
  - now rewrite Hl.
Qed.

Lemma find_startswith s m : startswith s m = true -> find s m = 0.
Proof.
  intros H. unfold find.
  destruct s; [rewrite find_nat_nil|rewrite find_nat_cons]; now rewrite H.
Qed.

Lemma slice_to_prefix s i : exists post, s = slice_to s i ++ post.
Proof. exists (slice_from s i). symmetry. apply slice_to_from. Qed.

End StringFacts.

(* ================================================================== *)
(** ** The shape of a segmentation result *)

Section Shape.

Local Open Scope string_scope.
Local Open Scope list_scope.

Lemma run_pathology_body_parts_shape b :
  let r := run_pathology_body_parts b in
  macro_prefix_index r = find b macro_marker /\
  body1 r = cut b (macro_prefix_index r) /\
  diagnosis_prefix_index r = find (body1 r) diagnosis_marker /\
  body2 r = cut (body1 r) (diagnosis_prefix_index r) /\
  prev_tests_prefix_index r = find (body2 r) prev_tests_marker /\
  body3 r = cut (body2 r) (prev_tests_prefix_index r) /\
  clinical_info_prefix_index r = find (body3 r) clinical_info_marker /\
  body4 r = cut (body3 r) (clinical_info_prefix_index r) /\
  ans_body_parts_dict r =
    entry "Clinical Information" (body3 r) (clinical_info_prefix_index r)
    ++ entry "Previous Tests" (body2 r) (prev_tests_prefix_index r)
    ++ entry "Diagnosis" (body1 r) (diagnosis_prefix_index r)
    ++ entry "Macroscopic Description" b (macro_prefix_index r).
Proof.
  unfold run_pathology_body_parts, cut, entry.
  destruct (negb (find b macro_marker =? -1)%Z) eqn:E1; cbn [fst snd];
  match goal with |- context [find ?w diagnosis_marker] =>
    destruct (negb (find w diagnosis_marker =? -1)%Z) eqn:E2 end;
  match goal with |- context [find ?w prev_tests_marker] =>
    destruct (negb (find w prev_tests_marker =? -1)%Z) eqn:E3 end;
  match goal with |- context [find ?w clinical_info_marker] =>
    destruct (negb (find w clinical_info_marker =? -1)%Z) eqn:E4 end;
  cbn; rewrite ?E1, ?E2, ?E3, ?E4; repeat split; reflexivity.
Qed.

End Shape.

Section Assembly.

Local Open Scope string_scope.
Local Open Scope list_scope.

Lemma entries_lookup w1 i1 w2 i2 w3 i3 w4 i4 :
  let parts := entry "Clinical Information" w1 i1
               ++ entry "Previous Tests" w2 i2
               ++ entry "Diagnosis" w3 i3
               ++ entry "Macroscopic Description" w4 i4 in
  (mem parts "Clinical Information" = negb (i1 =? -1)%Z /\
   get parts "Clinical Information" =
     if negb (i1 =? -1)%Z then VStr (slice_from w1 i1) else VNone) /\
  (mem parts "Previous Tests" = negb (i2 =? -1)%Z /\
   get parts "Previous Tests" =
     if negb (i2 =? -1)%Z then VStr (slice_from w2 i2) else VNone) /\
  (mem parts "Diagnosis" = negb (i3 =? -1)%Z /\
   get parts "Diagnosis" =
     if negb (i3 =? -1)%Z then VStr (slice_from w3 i3) else VNone) /\
  (mem parts "Macroscopic Description" = negb (i4 =? -1)%Z /\
   get parts "Macroscopic Description" =
     if negb (i4 =? -1)%Z then VStr (slice_from w4 i4) else VNone).
Proof.
  unfold entry.
  destruct (negb (i1 =? -1)%Z), (negb (i2 =? -1)%Z),
           (negb (i3 =? -1)%Z), (negb (i4 =? -1)%Z);
    cbn; repeat split; reflexivity.
Qed.

(** [z = head_foot.copy(); z.update(body_parts); z[footer key] = footer]
    puts the header first, the body sections next and the footer last. *)
Lemma assemble h f w1 i1 w2 i2 w3 i3 w4 i4 :
  let parts := entry "Clinical Information" w1 i1
               ++ entry "Previous Tests" w2 i2
               ++ entry "Diagnosis" w3 i3
               ++ entry "Macroscopic Description" w4 i4 in
  setitem (update [("General Information", VStr h)] parts)
          "Document Footer Information" (VStr f)
  = ("General Information", VStr h) :: parts
    ++ [("Document Footer Information", VStr f)].
Proof.
  unfold entry.
  destruct (negb (i1 =? -1)%Z), (negb (i2 =? -1)%Z),
           (negb (i3 =? -1)%Z), (negb (i4 =? -1)%Z); reflexivity.
Qed.

Lemma split_header_shape text :
  split_header text prefix_options [] [] =
  if negb (find text prefix_clinical =? -1)%Z then
    (slice_to text (find text prefix_clinical),
     slice_from text (find text prefix_clinical))
  else if negb (find text prefix_prev_tests =? -1)%Z then
    (slice_to text (find text prefix_prev_tests),
     slice_from text (find text prefix_prev_tests))
  else if negb (find text prefix_diagnosis =? -1)%Z then
    (slice_to text (find text prefix_diagnosis),
     slice_from text (find text prefix_diagnosis))
  else ([], []).
Proof. reflexivity. Qed.

Lemma run_partial_content_shape text :
  let r := run_partial_content text in
  (header r, body0 r) = split_header text prefix_options [] [] /\
  postfix_index r = find (body0 r) postfix_marker /\
  footer r = slice_from (body0 r) (postfix_index r) /\
  body r = slice_to (body0 r) (postfix_index r) /\
  body_parts r = get_pathology_body_parts (body r) /\
  z r = ("General Information", VStr (header r)) :: body_parts r
        ++ [("Document Footer Information", VStr (footer r))].
Proof.
  unfold run_partial_content.
  destruct (split_header text prefix_options [] []) as [h b0]; cbn.
  repeat split.
  unfold get_pathology_body_parts.
  destruct (run_pathology_body_parts_shape
              (slice_to b0 (find b0 postfix_marker)))
    as (_ & _ & _ & _ & _ & _ & _ & _ & ->).
  apply assemble.
Qed.

Lemma cut_prefix w i : prefix_of (cut w i) w.
Proof.
  unfold cut. destruct (negb (i =? -1)%Z).
  - apply slice_to_prefix.
  - exists []. now rewrite app_nil_r.
Qed.

Lemma prefix_of_len w b : prefix_of w b -> (len w <= len b)%Z.
Proof. intros [post ->]. unfold len. rewrite length_app. lia. Qed.

Lemma prefix_of_trans a b c : prefix_of a b -> prefix_of b c -> prefix_of a c.
Proof.
  intros [p ->] [q ->]. exists (p ++ q). now rewrite app_assoc.
Qed.

(** One block does one step of the peeling. *)
Lemma block_peels m w d name :
  mem d name = negb (find w m =? -1)%Z ->
  get d name = (if negb (find w m =? -1)%Z
                then VStr (slice_from w (find w m)) else VNone) ->
  peels m w d name (cut w (find w m)).
Proof.
  unfold cut. destruct (find w m =? -1)%Z eqn:E; cbn; intros Hm Hg.
  - left. apply Z.eqb_eq in E. repeat split; auto. now apply find_absent.
  - right. apply Z.eqb_neq in E.
    destruct (find_cut _ _ E) as (Hf & Hs & _).
    exists (slice_from w (find w m)). repeat split; auto; try apply Hf.
    symmetry. apply slice_to_from.
Qed.

End Assembly.

(* ================================================================== *)
(** ** Inner segmentation *)

Section Inner.

Local Open Scope string_scope.
Local Open Scope list_scope.

Lemma occurs_prefix m w b : occurs m w -> prefix_of w b -> occurs m b.
Proof.
  intros (pre & post & ->) [q ->]. exists pre, (post ++ q).
  now rewrite <- !app_assoc.
Qed.

Lemma occurs_suffix m pre b : occurs m b -> occurs m (pre ++ b).
Proof.
  intros (p & post & ->). exists (pre ++ p), post. now rewrite <- app_assoc.
Qed.

Lemma entry_In name' w i name v :
  In (name, v) (entry name' w i) ->
  name = name' /\ i <> (-1)%Z /\
  v = VStr (slice_from w i).
Proof.
  unfold entry. destruct (i =? -1)%Z eqn:E; cbn; [tauto|].
  intros [[= <- <-]|[]]. apply Z.eqb_neq in E. auto.
Qed.

(** The windows of the inner segmentation are nested prefixes. *)
Lemma windows_nested b :
  let p := run_pathology_body_parts b in
  prefix_of (body1 p) b /\ prefix_of (body2 p) (body1 p) /\
  prefix_of (body3 p) (body2 p) /\ prefix_of (body4 p) (body3 p).
Proof.
  destruct (run_pathology_body_parts_shape b)
    as (_ & H1 & _ & H2 & _ & H3 & _ & H4 & _).
  cbn zeta. rewrite H4, H3, H2, H1 at 1.
  repeat split; apply cut_prefix.
Qed.

Lemma peel_chain b i1 w1 i2 w2 i3 w3 i4 w4 d :
  i1 = find b macro_marker -> w1 = cut b i1 ->
  i2 = find w1 diagnosis_marker -> w2 = cut w1 i2 ->
  i3 = find w2 prev_tests_marker -> w3 = cut w2 i3 ->
  i4 = find w3 clinical_info_marker -> w4 = cut w3 i4 ->
  d = entry "Clinical Information" w3 i4 ++ entry "Previous Tests" w2 i3
      ++ entry "Diagnosis" w1 i2 ++ entry "Macroscopic Description" b i1 ->
  peels macro_marker b d "Macroscopic Description" w1 /\
  peels diagnosis_marker w1 d "Diagnosis" w2 /\
  peels prev_tests_marker w2 d "Previous Tests" w3 /\
  peels clinical_info_marker w3 d "Clinical Information" w4.
Proof.
  intros I1 B1 I2 B2 I3 B3 I4 B4 Hd.
  destruct (entries_lookup w3 i4 w2 i3 w1 i2 b i1)
    as ((M4 & G4) & (M3 & G3) & (M2 & G2) & (M1 & G1)).
  rewrite <- Hd in *.
  rewrite B4, B3, B2, B1 at 1.
  rewrite I1 in M1, G1 |- * at 1.
  rewrite I2 in M2, G2 |- * at 1.
  rewrite I3 in M3, G3 |- * at 1.
  rewrite I4 in M4, G4 |- * at 1.
  repeat apply conj; now apply block_peels.
Qed.

Lemma z_keys h f w1 i1 w2 i2 w3 i3 w4 i4 :
  let parts := entry "Clinical Information" w1 i1
               ++ entry "Previous Tests" w2 i2
               ++ entry "Diagnosis" w3 i3
               ++ entry "Macroscopic Description" w4 i4 in
  let z := ("General Information", VStr h) :: parts
           ++ [("Document Footer Information", VStr f)] in
  keys z = "General Information"
           :: filter (mem z) (map fst body_sections)
           ++ ["Document Footer Information"] /\
  mem z "Clinical Information" = negb (i1 =? -1)%Z /\
  mem z "Previous Tests" = negb (i2 =? -1)%Z /\
  mem z "Diagnosis" = negb (i3 =? -1)%Z /\
  mem z "Macroscopic Description" = negb (i4 =? -1)%Z.
Proof.
  unfold entry.
  destruct (negb (i1 =? -1)%Z), (negb (i2 =? -1)%Z),
           (negb (i3 =? -1)%Z), (negb (i4 =? -1)%Z);
    cbn; repeat split; reflexivity.
Qed.

Lemma body_sections_functional name m1 m2 :
  In (name, m1) body_sections -> In (name, m2) body_sections -> m1 = m2.
Proof.
  unfold body_sections; cbn.
  intros [E1|[E1|[E1|[E1|[]]]]] [E2|[E2|[E2|[E2|[]]]]];
    inversion E1; subst; inversion E2; subst; reflexivity.
Qed.

(** Every entry of the body dictionary is the text of one window from the
    first occurrence of the section's own phrase on. *)
Lemma body_parts_entries b name v :
  In (name, v) (get_pathology_body_parts b) ->
  exists marker w,
    In (name, marker) body_sections /\ prefix_of w b /\
    find w marker <> (-1)%Z /\ v = VStr (slice_from w (find w marker)).
Proof.
  unfold get_pathology_body_parts.
  pose proof (windows_nested b) as (N1 & N2 & N3 & N4).
  destruct (run_pathology_body_parts_shape b)
    as (I1 & B1 & I2 & B2 & I3 & B3 & I4 & B4 & ->).
  set (p := run_pathology_body_parts b) in *.
  assert (P2 : prefix_of (body2 p) b) by eauto using prefix_of_trans.
  assert (P3 : prefix_of (body3 p) b) by eauto using prefix_of_trans.
  intros H. repeat (apply in_app_or in H as [H|H]);
    apply entry_In in H as (-> & Hi & ->).
  - exists clinical_info_marker, (body3 p). rewrite <- I4.
    repeat split; auto. cbn; auto.
  - exists prev_tests_marker, (body2 p). rewrite <- I3.
    repeat split; auto. cbn; auto.
  - exists diagnosis_marker, (body1 p). rewrite <- I2.
    repeat split; auto. cbn; auto.
  - exists macro_marker, b. rewrite <- I1.
    repeat split; auto. cbn; auto 6. exists []. now rewrite app_nil_r.
Qed.

(** The working body is a suffix of the text, and what is handed to the
    inner segmentation is a prefix of the working body. *)
Lemma body_in_text text :
  let r := run_partial_content text in
  (exists pre, text = pre ++ body0 r) /\ prefix_of (body r) (body0 r).
Proof.
  destruct (run_partial_content_shape text) as (Hs & _ & _ & Hb & _).
  cbn zeta. rewrite Hb. split; [|apply slice_to_prefix].
  rewrite split_header_shape in Hs.
  repeat match type of Hs with
         | context [if ?c then _ else _] => destruct c
         end; injection Hs as Hh Hb0; rewrite Hb0;
    try (eexists; symmetry; apply slice_to_from).
  exists text. now rewrite app_nil_r.
Qed.

Lemma z_entries text name v :
  In (name, v) (get_partial_content text) ->
  let r := run_partial_content text in
  (name = "General Information" /\ v = VStr (header r)) \/
  In (name, v) (get_pathology_body_parts (body r)) \/
  (name = "Document Footer Information" /\ v = VStr (footer r)).
Proof.
  unfold get_partial_content.
  destruct (run_partial_content_shape text) as (_ & _ & _ & _ & Hp & ->).
  rewrite Hp. cbn zeta. intros [[= <- <-]|H]; [now left|].
  apply in_app_or in H as [H|[[= <- <-]|[]]]; auto.
Qed.

Lemma mem_In (d : dict) k : mem d k = true -> exists v, In (k, v) d.
Proof.
  unfold mem. intros H. apply existsb_exists in H as ([k' v] & Hin & E).
  apply String.eqb_eq in E. cbn in E. subst k'. now exists v.
Qed.

Lemma body_section_not_boundary name marker :
  In (name, marker) body_sections ->
  name <> "General Information" /\ name <> "Document Footer Information".
Proof.
  unfold body_sections; cbn.
  intros [E|[E|[E|[E|[]]]]]; inversion E; split; discriminate.
Qed.

Lemma body_section_marker_nonempty name marker :
  In (name, marker) body_sections -> marker <> [].
Proof.
  unfold body_sections; cbn.
  intros [E|[E|[E|[E|[]]]]]; inversion E; discriminate.
Qed.

(** A body section of the result is cut from a window inside the text, at
    the first occurrence of its phrase in that window. *)
Lemma z_body_entry text name marker v :
  In (name, marker) body_sections ->
  In (name, v) (get_partial_content text) ->
  exists w, prefix_of w (body (run_partial_content text)) /\
            find w marker <> (-1)%Z /\
            v = VStr (slice_from w (find w marker)).
Proof.
  intros Hn Hin. destruct (body_section_not_boundary _ _ Hn) as [Hg Hf].
  apply z_entries in Hin as [[E _]|[Hin|[E _]]]; try contradiction.
  apply body_parts_entries in Hin as (m' & w & Hm' & Hw & Hi & ->).
  rewrite (body_sections_functional _ _ _ Hn Hm') in *.
  now exists w.
Qed.

Lemma window_occurs_in_text text w m :
  prefix_of w (body (run_partial_content text)) ->
  occurs m w -> occurs m text.
Proof.
  intros Hw Ho. destruct (body_in_text text) as ([pre E] & Hb).
  rewrite E. apply occurs_suffix.
  eapply occurs_prefix; [|exact Hb]. eapply occurs_prefix; eassumption.
Qed.

End Inner.

(** C4.  Inner segmentation looks for the four phrases in the fixed order
    Macroscopic Description, Diagnosis, Previous Tests, Clinical Information.
    Each phrase is looked for in the window the previous step left; when it
    is found, the section is exactly the text from its first occurrence to
    the end of that window and the next window is what precedes it, so each
    window is a prefix of the one before. *)
Theorem inner_segmentation_peels_in_priority_order (b : str) :
  let d := get_pathology_body_parts b in
  exists w1 w2 w3 w4,
    peels macro_marker b d "Macroscopic Description" w1 /\
    peels diagnosis_marker w1 d "Diagnosis" w2 /\
    peels prev_tests_marker w2 d "Previous Tests" w3 /\
    peels clinical_info_marker w3 d "Clinical Information" w4 /\
    prefix_of w1 b /\ prefix_of w2 w1 /\ prefix_of w3 w2 /\ prefix_of w4 w3.
Proof.
  intros d. subst d. unfold get_pathology_body_parts.
  pose proof (windows_nested b) as (N1 & N2 & N3 & N4).
  destruct (run_pathology_body_parts_shape b)
    as (I1 & B1 & I2 & B2 & I3 & B3 & I4 & B4 & Hans).
  set (p := run_pathology_body_parts b) in *.
  exists (body1 p), (body2 p), (body3 p), (body4 p).
  pose proof (peel_chain _ _ _ _ _ _ _ _ _ _ I1 B1 I2 B2 I3 B3 I4 B4 Hans)
    as (P1 & P2 & P3 & P4).
  repeat apply conj; assumption.
Qed.

(** C10.  Every body section of the segmentation result (Clinical
    Information, Previous Tests, Diagnosis, Macroscopic Description) holds a
    string that begins with the section's own marker phrase. *)
Theorem section_value_begins_with_marker text name marker v :
  In (name, marker) body_sections ->
  In (name, v) (get_partial_content text) ->
  exists content, v = VStr content /\ startswith content marker = true.
Proof.
  intros Hn Hin.
  destruct (z_body_entry _ _ _ _ Hn Hin) as (w & _ & Hi & ->).
  eexists; split; [reflexivity|]. now apply find_cut.
Qed.

Lemma section_value_begins_with_marker_witness :
  In ("Clinical Information"%string, clinical_info_marker) body_sections /\
  In ("Clinical Information"%string,
      VStr (clinical_info_marker ++ of_ascii "ab"))
     (get_partial_content (clinical_info_marker ++ of_ascii "abc")) /\
  exists content,
    VStr (clinical_info_marker ++ of_ascii "ab") = VStr content /\
    startswith content clinical_info_marker = true.
Proof.
  assert (H1 : In ("Clinical Information"%string, clinical_info_marker)
                  body_sections) by (left; reflexivity).
  assert (H2 : In ("Clinical Information"%string,
                   VStr (clinical_info_marker ++ of_ascii "ab"))
                  (get_partial_content
                     (clinical_info_marker ++ of_ascii "abc")))
    by (right; left; reflexivity).
  split; [exact H1|]. split; [exact H2|].
  exact (section_value_begins_with_marker _ _ _ _ H1 H2).
Defined.

(** C6.  The keys of the result are: General Information first, then the
    body sections that were found, in the order Clinical Information,
    Previous Tests, Diagnosis, Macroscopic Description, then Document Footer
    Information.  A body section is present exactly when its search
    answered an index; a phrase that does not occur in the text gives no
    entry, and an entry is never empty or [None]. *)
Theorem section_map_order text :
  let z := get_partial_content text in
  let p := run_pathology_body_parts (body (run_partial_content text)) in
  keys z = "General Information"%string
           :: filter (mem z) (map fst body_sections)
           ++ ["Document Footer Information"%string] /\
  (mem z "Clinical Information" = true <->
   clinical_info_prefix_index p <> -1) /\
  (mem z "Previous Tests" = true <-> prev_tests_prefix_index p <> -1) /\
  (mem z "Diagnosis" = true <-> diagnosis_prefix_index p <> -1) /\
  (mem z "Macroscopic Description" = true <-> macro_prefix_index p <> -1) /\
  (forall name marker,
      In (name, marker) body_sections -> ~ occurs marker text ->
      mem z name = false) /\
  (forall name marker v,
      In (name, marker) body_sections -> In (name, v) z ->
      v <> VNone /\ v <> VStr []).
Proof.
  intros z p.
  assert (Hz : z = get_partial_content text) by reflexivity.
  unfold get_partial_content in Hz.
  destruct (run_partial_content_shape text) as (_ & _ & _ & _ & Hp & Hzr).
  rewrite Hzr, Hp in Hz. unfold get_pathology_body_parts in Hz. fold p in Hz.
  destruct (run_pathology_body_parts_shape (body (run_partial_content text)))
    as (_ & _ & _ & _ & _ & _ & _ & _ & Hans).
  fold p in Hans. rewrite Hans in Hz.
  destruct (z_keys (header (run_partial_content text))
                   (footer (run_partial_content text))
                   (body3 p) (clinical_info_prefix_index p)
                   (body2 p) (prev_tests_prefix_index p)
                   (body1 p) (diagnosis_prefix_index p)
                   (body (run_partial_content text)) (macro_prefix_index p))
    as (K & M4 & M3 & M2 & M1).
  cbn zeta in K, M4, M3, M2, M1. rewrite <- Hz in K, M4, M3, M2, M1.
  assert (Hneg : forall i, negb (i =? -1) = true <-> i <> -1).
  { intros i. rewrite negb_true_iff. apply Z.eqb_neq. }
  split; [exact K|].
  rewrite M4, M3, M2, M1, !Hneg. repeat split; try tauto.
  - intros name marker Hn Habs.
    destruct (mem z name) eqn:E; [exfalso|reflexivity].
    apply mem_In in E as [v Hin].
    destruct (z_body_entry _ _ _ _ Hn Hin) as (w & Hw & Hi & _).
    apply Habs. apply (window_occurs_in_text text w); [exact Hw|].
    destruct (find_cut _ _ Hi) as ([[post E] _] & _).
    rewrite E. now exists (slice_to w (find w marker)), post.
  - destruct (z_body_entry _ _ _ _ H H0) as (w & _ & Hi & ->). discriminate.
  - destruct (z_body_entry _ _ _ _ H H0) as (w & _ & Hi & ->).
    intros [= E]. destruct (find_cut _ _ Hi) as (_ & Hs & _).
    rewrite E in Hs. apply startswith_length in Hs.
    apply (body_section_marker_nonempty _ _ H).
    destruct marker; [reflexivity|cbn in Hs; lia].
Qed.

(* ================================================================== *)
(** ** Outer split and reconstruction *)

Section Outer.

Local Open Scope string_scope.
Local Open Scope list_scope.

(** The loop stops at the first phrase of the list that occurs. *)
Lemma split_header_found text opts h b :
  (exists p, In p opts /\ occurs p text) ->
  exists p before after,
    opts = before ++ p :: after /\
    Forall (fun q => ~ occurs q text) before /\
    find text p <> (-1)%Z /\
    split_header text opts h b =
      (slice_to text (find text p), slice_from text (find text p)).
Proof.
  induction opts as [|q opts IH]; intros (p & Hin & Ho); [destruct Hin|].
  cbn [split_header]. destruct (find text q =? -1)%Z eqn:E; cbn [negb].
  - apply Z.eqb_eq in E. apply find_absent in E.
    destruct Hin as [->|Hin]; [contradiction|].
    destruct IH as (p' & before & after & -> & Hb & Hf & Hs); [eauto|].
    exists p', (q :: before), after. repeat split; auto.
  - apply Z.eqb_neq in E. exists q, [], opts. repeat split; auto.
Qed.

(** When no phrase of the list occurs, the initial values stay. *)
Lemma split_header_none text opts h b :
  (forall p, In p opts -> ~ occurs p text) ->
  split_header text opts h b = (h, b).
Proof.
  induction opts as [|q opts IH]; intros H; [reflexivity|].
  cbn [split_header].
  assert (E : find text q = (-1)%Z) by (apply find_absent, H; now left).
  rewrite E. cbn. apply IH. intros p Hp. apply H. now right.
Qed.

Lemma cut_entry_text w i : cut w i ++ List.concat (entry_text w i) = w.
Proof.
  unfold cut, entry_text. destruct (negb (i =? -1)%Z); cbn.
  - rewrite app_nil_r. apply slice_to_from.
  - apply app_nil_r.
Qed.

Lemma values_app (d1 d2 : dict) : values (d1 ++ d2) = values d1 ++ values d2.
Proof. apply map_app. Qed.

Lemma values_entry name w i :
  values (entry name w i) = map VStr (entry_text w i).
Proof. unfold entry, entry_text. now destruct (negb (i =? -1)%Z). Qed.

(** The residue and the body sections, in the order of the map, make up
    the body that was handed to the inner segmentation. *)
Lemma body_accounting b :
  let p := run_pathology_body_parts b in
  exists sections,
    values (get_pathology_body_parts b) = map VStr sections /\
    body4 p ++ List.concat sections = b.
Proof.
  unfold get_pathology_body_parts.
  destruct (run_pathology_body_parts_shape b)
    as (_ & B1 & _ & B2 & _ & B3 & _ & B4 & ->).
  set (p := run_pathology_body_parts b) in *. cbn zeta.
  exists (entry_text (body3 p) (clinical_info_prefix_index p)
          ++ entry_text (body2 p) (prev_tests_prefix_index p)
          ++ entry_text (body1 p) (diagnosis_prefix_index p)
          ++ entry_text b (macro_prefix_index p)).
  split.
  - rewrite !values_app, !values_entry, !map_app. reflexivity.
  - rewrite !concat_app, !app_assoc.
    rewrite B4, cut_entry_text, B3, cut_entry_text, B2, cut_entry_text, B1.
    apply cut_entry_text.
Qed.

Lemma startswith_prefix w b m :
  prefix_of w b -> startswith b m = true -> occurs m w ->
  startswith w m = true.
Proof.
  intros [q ->] Hs (pre & post & E).
  destruct (startswith_inv _ _ Hs) as [rest Hb].
  assert (Hl : (List.length m <= List.length w)%nat).
  { rewrite E, !length_app. lia. }
  assert (Hw : w = firstn (List.length w) (m ++ rest)).
  { rewrite <- Hb. symmetry. apply firstn_app_exact. }
  rewrite firstn_app, firstn_all2 in Hw by exact Hl.
  rewrite Hw. apply startswith_app.
Qed.

Lemma cut_at_start w m :
  startswith w m = true -> cut w (find w m) = [].
Proof.
  intros H. rewrite (find_startswith _ _ H).
  unfold cut, slice_to. cbn [Z.eqb negb].
  rewrite adjust_same by (unfold len; lia). reflexivity.
Qed.

End Outer.

(** X27.  Some text is kept by no entry: the residue,
    the part of the body in front of the earliest section that the inner
    segmentation cut off.  When a "body begins" phrase occurs in the text,
    General Information, the residue, the body sections in the order of the
    map and Document Footer Information are consecutive pieces of the text:
    put end to end they give the text exactly.  When the map has a Clinical
    Information entry the residue is empty, and the values of the map alone
    reconstruct the text. *)
Theorem reconstruction_up_to_residue text :
  let r := run_partial_content text in
  let z := get_partial_content text in
  exists sections,
    values z = map VStr (header r :: sections ++ [footer r]) /\
    ((exists p, In p prefix_options /\ occurs p text) ->
     header r ++ residue text ++ List.concat sections ++ footer r = text) /\
    (mem z "Clinical Information" = true ->
     residue text = [] /\ reconstructs z text).
Proof.
  intros r z.
  destruct (run_partial_content_shape text) as (Hs & Hi & Hf & Hb & Hp & Hz).
  fold r in Hs, Hi, Hf, Hb, Hp, Hz.
  destruct (body_accounting (body r)) as (sections & Hv & Hacc).
  change (residue text ++ List.concat sections = body r) in Hacc.
  assert (Hvz : values z = map VStr (header r :: sections ++ [footer r])).
  { unfold z, get_partial_content. fold r. rewrite Hz, Hp.
    cbn [values map fst snd]. fold (values (get_pathology_body_parts (body r)
                                            ++ [("Document Footer Information"%string,
                                                 VStr (footer r))])).
    rewrite values_app, Hv, map_app. reflexivity. }
  assert (Hbody : body r ++ footer r = body0 r).
  { rewrite Hb, Hf. apply slice_to_from. }
  assert (Hfound : (exists p, In p prefix_options /\ occurs p text) ->
                   header r ++ body0 r = text).
  { intros H.
    destruct (split_header_found text prefix_options [] [] H)
      as (p & _ & _ & _ & _ & _ & E).
    rewrite E in Hs. injection Hs as -> ->. apply slice_to_from. }
  assert (Hall : (exists p, In p prefix_options /\ occurs p text) ->
                 header r ++ residue text ++ List.concat sections ++ footer r
                 = text).
  { intros H. etransitivity; [|exact (Hfound H)].
    rewrite <- Hbody, <- Hacc, <- !app_assoc. reflexivity. }
  exists sections. split; [exact Hvz|]. split; [exact Hall|].
  intros Hmem.
  (* the entry is there, so the phrase occurs in the last window ... *)
  apply mem_In in Hmem as [v Hin].
  assert (Hn : In ("Clinical Information"%string, clinical_info_marker)
                  body_sections) by (left; reflexivity).
  destruct (z_body_entry _ _ _ _ Hn Hin) as (w & Hw & Hidx & _).
  assert (Hocc : occurs clinical_info_marker text).
  { apply (window_occurs_in_text text w); [exact Hw|].
    destruct (find_cut _ _ Hidx) as ([[post E] _] & _).
    rewrite E. now exists (slice_to w (find w clinical_info_marker)), post. }
  (* ... hence the loop stopped at the first phrase of its list ... *)
  assert (Hfind : find text prefix_clinical <> -1).
  { intros E. now apply find_absent in E. }
  rewrite split_header_shape in Hs.
  apply Z.eqb_neq in Hfind. rewrite Hfind in Hs. cbn [negb] in Hs.
  apply Z.eqb_neq in Hfind.
  injection Hs as Hh Hb0.
  assert (Hstart : startswith (body0 r) clinical_info_marker = true).
  { rewrite Hb0. now apply find_cut. }
  (* ... and the last window, a prefix of the body, begins with it. *)
  pose proof (windows_nested (body r)) as (N1 & N2 & N3 & _).
  destruct (run_pathology_body_parts_shape (body r))
    as (_ & _ & _ & _ & _ & _ & I4 & B4 & Hans).
  set (p := run_pathology_body_parts (body r)) in *.
  assert (P3 : prefix_of (body3 p) (body0 r)).
  { destruct (body_in_text text) as (_ & Hpb). fold r in Hpb.
    eauto using prefix_of_trans. }
  assert (Hclin : clinical_info_prefix_index p <> -1).
  { destruct (z_entries _ _ _ Hin) as [[E _]|[Hin'|[E _]]]; try discriminate.
    fold r in Hin'. unfold get_pathology_body_parts in Hin'. fold p in Hin'.
    rewrite Hans in Hin'.
    repeat (apply in_app_or in Hin' as [Hin'|Hin']);
      apply entry_In in Hin' as (E & Hne & _);
      try discriminate E. exact Hne. }
  assert (Hres : residue text = []).
  { unfold residue. fold r. fold p. rewrite B4, I4. apply cut_at_start.
    apply (startswith_prefix _ (body0 r)); auto.
    rewrite I4 in Hclin.
    destruct (find_cut _ _ Hclin) as ([[post E] _] & _).
    now exists (slice_to (body3 p) (find (body3 p) clinical_info_marker)),
               post. }
  split; [exact Hres|].
  exists (header r :: sections ++ [footer r]). split; [exact Hvz|].
  assert (H : exists q, In q prefix_options /\ occurs q text).
  { exists prefix_clinical. split; [left; reflexivity|exact Hocc]. }
  specialize (Hall H). rewrite Hres in Hall. cbn [app] in Hall.
  cbn [List.concat]. rewrite concat_app. cbn [List.concat].
  now rewrite app_nil_r.
Qed.

Lemma reconstruction_up_to_residue_witness :
  mem (get_partial_content clinical_report) "Clinical Information" = true /\
  reconstructs (get_partial_content clinical_report) clinical_report /\
  (exists p, In p prefix_options /\ occurs p diagnosis_report) /\
  residue diagnosis_report = [8235%N] /\
  exists sections,
    values (get_partial_content diagnosis_report)
    = map VStr (header (run_partial_content diagnosis_report)
                :: sections
                ++ [footer (run_partial_content diagnosis_report)]) /\
    header (run_partial_content diagnosis_report)
    ++ residue diagnosis_report ++ List.concat sections
    ++ footer (run_partial_content diagnosis_report) = diagnosis_report.
Proof.
  assert (H : mem (get_partial_content clinical_report)
                  "Clinical Information" = true) by reflexivity.
  assert (D : exists p, In p prefix_options /\ occurs p diagnosis_report).
  { exists prefix_diagnosis. split; [right; right; left; reflexivity|].
    exists (of_ascii "h"), (of_ascii "abc" ++ postfix_marker ++ of_ascii "f").
    reflexivity. }
  split; [exact H|]. split.
  - destruct (reconstruction_up_to_residue clinical_report)
      as (s & _ & _ & R).
    exact (proj2 (R H)).
  - split; [exact D|]. split; [reflexivity|].
    destruct (reconstruction_up_to_residue diagnosis_report)
      as (s & Hv & Hall & _).
    exists s. split; [exact Hv|exact (Hall D)].
Defined.

(** For a report that begins with the diagnosis phrase, the values of the
    map do not give the text back: the mark in front of the diagnosis
    phrase is in no entry. *)
Lemma reconstruction_counterexample :
  ~ reconstructs (get_partial_content diagnosis_report) diagnosis_report.
Proof.
  intros (pieces & Hv & Hc). vm_compute in Hv.
  destruct pieces as [|p1 [|p2 [|p3 [|p4 ps]]]]; try discriminate Hv.
  injection Hv as <- <- <-. vm_compute in Hc. discriminate Hc.
Qed.

(** C5, as the code has it.  When some "body begins" phrase occurs in the
    text, the split is made at the first occurrence of the phrase that comes
    first in the list [prefix_options] among those that occur, wherever the
    other phrases stand in the text: General Information is the text before
    that occurrence and the working body is the text from it on. *)
Theorem outer_split_at_first_listed_marker text :
  (exists p, In p prefix_options /\ occurs p text) ->
  let r := run_partial_content text in
  exists p before after,
    prefix_options = before ++ p :: after /\
    Forall (fun q => ~ occurs q text) before /\
    first_occurrence p (header r) text /\
    text = header r ++ body0 r /\
    startswith (body0 r) p = true /\
    get (get_partial_content text) "General Information" = VStr (header r).
Proof.
  intros H r.
  destruct (run_partial_content_shape text) as (Hs & _ & _ & _ & _ & Hz).
  fold r in Hs, Hz.
  destruct (split_header_found text prefix_options [] [] H)
    as (p & before & after & Hopts & Hb & Hf & E).
  rewrite E in Hs. injection Hs as Hh Hb0.
  destruct (find_cut _ _ Hf) as (Hfirst & Hstart & _).
  exists p, before, after. rewrite Hh, Hb0.
  repeat split; try assumption; try apply Hfirst.
  - symmetry. apply slice_to_from.
  - unfold get_partial_content. fold r. rewrite Hz, Hh. reflexivity.
Qed.

Lemma outer_split_at_first_listed_marker_witness :
  (exists p, In p prefix_options /\ occurs p clinical_report) /\
  exists p before after,
    prefix_options = before ++ p :: after /\
    Forall (fun q => ~ occurs q clinical_report) before /\
    first_occurrence p (header (run_partial_content clinical_report))
                     clinical_report /\
    clinical_report = header (run_partial_content clinical_report)
                      ++ body0 (run_partial_content clinical_report) /\
    startswith (body0 (run_partial_content clinical_report)) p = true /\
    get (get_partial_content clinical_report) "General Information"
    = VStr (header (run_partial_content clinical_report)).
Proof.
  assert (H : exists p, In p prefix_options /\ occurs p clinical_report).
  { exists prefix_clinical. split; [left; reflexivity|].
    exists (of_ascii "h"), (of_ascii "abc" ++ postfix_marker ++ of_ascii "f").
    reflexivity. }
  split; [exact H|].
  exact (outer_split_at_first_listed_marker clinical_report H).
Defined.

(** C5 as stated fails: when the diagnosis phrase stands in front of the
    clinical-information phrase, General Information is not the text before
    the phrase that occurs first; it runs up to the clinical-information
    phrase and holds the diagnosis phrase. *)
Lemma outer_split_counterexample :
  (exists p, In p prefix_options /\ occurs p diagnosis_first_report) /\
  get (get_partial_content diagnosis_first_report) "General Information"
  = VStr (prefix_diagnosis ++ of_ascii "x") /\
  ~ splits_at_earliest_marker
      diagnosis_first_report
      (header (run_partial_content diagnosis_first_report))
      (body0 (run_partial_content diagnosis_first_report)).
Proof.
  split; [|split].
  - exists prefix_clinical. split; [left; reflexivity|].
    exists (prefix_diagnosis ++ of_ascii "x"), (of_ascii "y"). reflexivity.
  - reflexivity.
  - intros (_ & _ & H).
    specialize (H prefix_diagnosis []
                  (of_ascii "x" ++ prefix_clinical ++ of_ascii "y")).
    assert (L : (List.length
                   (header (run_partial_content diagnosis_first_report))
                 <= List.length (@nil char))%nat).
    { apply H; [right; right; left; reflexivity|reflexivity]. }
    vm_compute in L. lia.
Qed.

(** C9, as the code has it.  When none of the "body begins" phrases occurs
    in the text, the result has the two boundary keys only and both values
    are empty: the working body keeps its initial empty value, so the
    print-date phrase is looked for in the empty string and not in the
    text. *)
Theorem unmarked_text_gives_empty_boundaries text :
  (forall p, In p prefix_options -> ~ occurs p text) ->
  let r := run_partial_content text in
  get_partial_content text =
    [("General Information"%string, VStr []);
     ("Document Footer Information"%string, VStr [])] /\
  body0 r = [] /\ postfix_index r = find [] postfix_marker /\
  postfix_index r = -1.
Proof.
  intros H r. subst r.
  unfold get_partial_content, run_partial_content.
  rewrite (split_header_none text prefix_options [] [] H).
  repeat split.
Qed.

Lemma unmarked_text_absent p :
  In p prefix_options -> ~ occurs p unmarked_dated_text.
Proof.
  intros [<-|[<-|[<-|[]]]]; apply find_absent; reflexivity.
Qed.

Lemma unmarked_text_gives_empty_boundaries_witness :
  (forall p, In p prefix_options -> ~ occurs p unmarked_dated_text) /\
  get_partial_content unmarked_dated_text =
    [("General Information"%string, VStr []);
     ("Document Footer Information"%string, VStr [])].
Proof.
  split; [exact unmarked_text_absent|].
  exact (proj1 (unmarked_text_gives_empty_boundaries
                  unmarked_dated_text unmarked_text_absent)).
Defined.

(** C9 as stated fails: on a text with a print date and no "body begins"
    phrase, the footer is not what a search of the whole text finds. *)
Lemma unmarked_text_counterexample :
  (forall p, In p prefix_options -> ~ occurs p unmarked_dated_text) /\
  get (get_partial_content unmarked_dated_text) "Document Footer Information"
  = VStr [] /\
  ~ footer_found_in unmarked_dated_text [].
Proof.
  split; [exact unmarked_text_absent|]. split; [reflexivity|].
  intros F.
  assert (Hi : find unmarked_dated_text postfix_marker <> -1)
    by (vm_compute; discriminate).
  destruct (find_cut _ _ Hi) as (Hfirst & _).
  apply F in Hfirst. vm_compute in Hfirst. discriminate Hfirst.
Qed.

(** Without the print-date phrase the footer cut is made at index [-1]:
    the footer is the last character of the working body and the body
    handed on lacks it. *)
Lemma footer_cut_without_marker text :
  let r := run_partial_content text in
  ~ occurs postfix_marker (body0 r) ->
  footer r = slice_from (body0 r) (-1) /\ body r = slice_to (body0 r) (-1) /\
  (body0 r <> [] -> len (footer r) = 1 /\ len (body r) = len (body0 r) - 1).
Proof.
  intros r H. apply find_absent in H.
  destruct (run_partial_content_shape text) as (_ & Hi & Hf & Hb & _).
  fold r in Hi, Hf, Hb. rewrite Hi, H in Hf, Hb.
  split; [exact Hf|]. split; [exact Hb|].
  intros Hne. rewrite Hf, Hb. unfold slice_from, slice_to, adjust, len.
  cbn [Z.ltb Z.compare].
  destruct (body0 r) as [|c s]; [contradiction|].
  rewrite length_skipn, length_firstn. cbn [List.length]. lia.
Qed.

(** C2 at a report without a print date: the footer holds the last
    character of the text and the body handed to the inner segmentation has
    lost it. *)
Theorem undated_report_footer :
  ~ occurs postfix_marker undated_report /\
  body0 (run_partial_content undated_report) = undated_report /\
  body (run_partial_content undated_report)
  = clinical_info_marker ++ of_ascii "ab" /\
  get_partial_content undated_report =
    [("General Information"%string, VStr []);
     ("Clinical Information"%string,
      VStr (clinical_info_marker ++ of_ascii "ab"));
     ("Document Footer Information"%string, VStr (of_ascii "c"))].
Proof.
  split; [apply find_absent; reflexivity|]. repeat split.
Qed.

(* ================================================================== *)
(** ** Text extraction *)

Section Extract.

Context {Image : Type} (caps : Capabilities Image).

Lemma mapM_tesseract images outs :
  Forall2 (fun image o => image_to_string caps image "heb+eng" = Some o)
          images outs ->
  mapM (fun image => invoke CallTesseract TesseractError
                            (image_to_string caps image "heb+eng")) images
  = (repeat CallTesseract (List.length images), inr outs).
Proof.
  induction 1 as [|image o images outs Ho _ IH]; [reflexivity|].
  cbn [mapM]. rewrite Ho, IH. unfold invoke, bind, ret.
  cbn. now rewrite app_nil_r.
Qed.

Lemma lstrip_length s : (List.length (lstrip s) <= List.length s)%nat.
Proof.
  induction s as [|c s IH]; cbn; [lia|].
  destruct (isspace c); cbn; lia.
Qed.

Lemma strip_length s : len (strip s) <= len s.
Proof.
  unfold strip, len. rewrite length_rev.
  pose proof (lstrip_length (rev (lstrip s))) as H1.
  pose proof (lstrip_length s) as H2. rewrite length_rev in H1. lia.
Qed.

Lemma truthy_true s : truthy s = true <-> s <> [].
Proof. destruct s; cbn; split; congruence. Qed.

(** The test of the callbacks, read as a proposition. *)
Lemma needs_ocr_true text :
  needs_ocr text = true <-> strip text = [] \/ len text < 20.
Proof.
  unfold needs_ocr. rewrite orb_true_iff, negb_true_iff, Z.ltb_lt.
  destruct (strip text); cbn; intuition congruence.
Qed.

Lemma needs_ocr_false text :
  needs_ocr text = false <-> strip text <> [] /\ 20 <= len text.
Proof.
  unfold needs_ocr. rewrite orb_false_iff, negb_false_iff, Z.ltb_ge.
  now rewrite truthy_true.
Qed.

(** The shared part of the callbacks on a PDF that decodes and has a text
    layer. *)
Lemma upload_text_pdf c name decoded pages :
  decode_upload caps c = ret decoded ->
  endswith (lower caps name) (of_ascii ".pdf") = true ->
  pdftotext_PDF caps decoded = Some pages ->
  let text := join (newline ++ newline) pages in
  upload_text caps (Some c) name =
  if needs_ocr text then
    bind ([CallPdftotext], inr tt)
         (fun _ => images <- pdf_to_images caps decoded ;;
                   extract_text_from_images caps images)
  else ([CallPdftotext], inr text).
Proof.
  intros Hd Hn Hp text. unfold upload_text.
  rewrite Hd. cbn [bind ret]. rewrite Hn.
  unfold extract_text_from_pdf, invoke. rewrite Hp. cbn [bind ret app].
  subst text. destruct (needs_ocr _); [|reflexivity].
  now destruct (bind (pdf_to_images caps decoded) _) as [l o].
Qed.

Lemma log_tab2 content name :
  log (update_output_tab2 caps content name)
  = log (upload_text caps content name).
Proof.
  unfold update_output_tab2.
  destruct (upload_text caps content name) as [l [e|t]]; cbn;
    [reflexivity|apply app_nil_r].
Qed.

Lemma ocr_path_log decoded :
  exists l o,
    bind ([CallPdftotext], inr tt)
         (fun _ => images <- pdf_to_images caps decoded ;;
                   extract_text_from_images caps images)
    = (CallPdftotext :: CallPdf2image :: l, o).
Proof.
  unfold pdf_to_images, invoke.
  destruct (convert_from_bytes caps decoded) as [images|]; cbn.
  - destruct (extract_text_from_images caps images) as [l o]. now exists l, o.
  - now exists [], (inl Pdf2imageError).
Qed.

Lemma decode_upload_log c : exists r, decode_upload caps c = ([], r).
Proof.
  unfold decode_upload.
  destruct (split comma c) as [|t [|s [|? ?]]]; try (now eexists).
  destruct (b64decode caps s); now eexists.
Qed.

(** A file name that does not end in ".pdf" ends the shared part with an
    exception before any engine is called. *)
Lemma upload_text_non_pdf content name :
  endswith (lower caps name) (of_ascii ".pdf") = false ->
  exists e,
    upload_text caps content name = ([], inl e) /\
    (content = None -> e = PreventUpdate) /\
    (forall c decoded,
        content = Some c -> decode_upload caps c = ret decoded ->
        e = PreventUpdate).
Proof.
  intros Hn. unfold upload_text. destruct content as [c|].
  - destruct (decode_upload_log c) as [[e|d] E]; rewrite E; cbn [bind].
    + exists e. repeat split; [discriminate|].
      intros c' d [= <-]. rewrite E. discriminate.
    + rewrite Hn. exists PreventUpdate. repeat split.
  - exists PreventUpdate. repeat split.
Qed.

End Extract.

(** C7, as the code has it.  When OCR reads every page, the text returned
    by the OCR fallback is the outputs of the pages in page order, joined by
    one newline character between consecutive pages; tesseract is called
    once per page. *)
Theorem ocr_pages_joined_by_newline {Image} (caps : Capabilities Image)
        images outs :
  Forall2 (fun image o => image_to_string caps image "heb+eng" = Some o)
          images outs ->
  extract_text_from_images caps images
  = (repeat CallTesseract (List.length images), inr (join newline outs)).
Proof.
  intros H. unfold extract_text_from_images.
  rewrite (mapM_tesseract caps images outs H).
  cbn. now rewrite app_nil_r.
Qed.

Lemma ocr_pages_joined_by_newline_witness :
  Forall2 (fun image o =>
             image_to_string (sample_caps [] []) image "heb+eng" = Some o)
          [of_ascii "a"; of_ascii "b"] [of_ascii "a"; of_ascii "b"] /\
  extract_text_from_images (sample_caps [] []) [of_ascii "a"; of_ascii "b"]
  = ([CallTesseract; CallTesseract],
     inr (join newline [of_ascii "a"; of_ascii "b"])).
Proof.
  assert (H : Forall2 (fun image o =>
                         image_to_string (sample_caps [] []) image "heb+eng"
                         = Some o)
                      [of_ascii "a"; of_ascii "b"]
                      [of_ascii "a"; of_ascii "b"]).
  { repeat constructor. }
  split; [exact H|].
  exact (ocr_pages_joined_by_newline (sample_caps [] []) _ _ H).
Defined.

(** C7 as stated fails: two pages read as "a" and "b" come back with one
    newline between them, not with a blank line. *)
Lemma ocr_separator_counterexample :
  extract_text_from_images (sample_caps [] []) [of_ascii "a"; of_ascii "b"]
  = ([CallTesseract; CallTesseract], inr [97; 10; 98]%N) /\
  outcome (extract_text_from_images (sample_caps [] [])
                                    [of_ascii "a"; of_ascii "b"])
  <> inr (join blank_line [of_ascii "a"; of_ascii "b"]).
Proof.
  split; [reflexivity|]. vm_compute. discriminate.
Qed.

(** C3, as the code has it.  For an uploaded PDF that decodes and has a
    text layer, both callbacks keep the native text, calling no other
    engine, exactly when the text is not blank once stripped and its length
    before stripping is at least 20; otherwise they take the OCR path.  In
    particular a text whose stripped length is at least 20 is kept. *)
Theorem native_text_kept_iff {Image} (caps : Capabilities Image)
        c name decoded pages :
  decode_upload caps c = ret decoded ->
  endswith (lower caps name) (of_ascii ".pdf") = true ->
  pdftotext_PDF caps decoded = Some pages ->
  let text := join (newline ++ newline) pages in
  let run1 := update_output_tab1 caps (Some c) name in
  let run2 := update_output_tab2 caps (Some c) name in
  (run1 = ([CallPdftotext], inr text) <-> strip text <> [] /\ 20 <= len text)
  /\ (In CallPdf2image (log run1) <-> strip text = [] \/ len text < 20)
  /\ (In CallPdf2image (log run2) <-> strip text = [] \/ len text < 20)
  /\ (strip text = [] \/ len text < 20 ->
      run1 = bind ([CallPdftotext], inr tt)
                  (fun _ => images <- pdf_to_images caps decoded ;;
                            extract_text_from_images caps images))
  /\ (20 <= len (strip text) -> run1 = ([CallPdftotext], inr text)).
Proof.
  intros Hd Hn Hp text run1 run2.
  pose proof (upload_text_pdf caps c name decoded pages Hd Hn Hp) as E.
  cbn zeta in E. fold text in E.
  assert (L2 : log run2 = log run1) by apply log_tab2.
  rewrite L2. unfold run1, update_output_tab1. rewrite E.
  destruct (ocr_path_log caps decoded) as (l & o & Eo).
  destruct (needs_ocr text) eqn:N.
  - apply needs_ocr_true in N. rewrite Eo. cbn [log fst].
    assert (Hno : ~ (strip text <> [] /\ 20 <= len text)).
    { intros [Hs Hl]. destruct N; [easy|lia]. }
    split; [|split; [|split; [|split]]].
    + split; [intros [= _ _]|intros H; now destruct Hno].
    + split; [intros _; exact N|intros _; right; now left].
    + split; [intros _; exact N|intros _; right; now left].
    + reflexivity.
    + intros Hl. exfalso. pose proof (strip_length text).
      destruct N as [N|N]; [rewrite N in Hl; cbn in Hl|]; lia.
  - apply needs_ocr_false in N. cbn [log fst].
    assert (Hno : ~ (strip text = [] \/ len text < 20)).
    { intros [H|H]; [easy|lia]. }
    split; [|split; [|split; [|split]]].
    + split; [intros _; exact N|reflexivity].
    + split; [intros [[=]|[]]|intros H; now destruct Hno].
    + split; [intros [[=]|[]]|intros H; now destruct Hno].
    + intros H; now destruct Hno.
    + reflexivity.
Qed.

Lemma native_text_kept_iff_witness :
  decode_upload (sample_caps [padded_text] []) sample_upload = ret [] /\
  endswith (lower (sample_caps [padded_text] []) (of_ascii "Scan.PDF"))
           (of_ascii ".pdf") = true /\
  pdftotext_PDF (sample_caps [padded_text] []) [] = Some [padded_text] /\
  (update_output_tab1 (sample_caps [padded_text] []) (Some sample_upload)
                      (of_ascii "Scan.PDF")
   = ([CallPdftotext], inr padded_text) <->
   strip padded_text <> [] /\ 20 <= len padded_text).
Proof.
  assert (H1 : decode_upload (sample_caps [padded_text] []) sample_upload
               = ret []) by reflexivity.
  assert (H2 : endswith (lower (sample_caps [padded_text] [])
                               (of_ascii "Scan.PDF"))
                        (of_ascii ".pdf") = true) by reflexivity.
  assert (H3 : pdftotext_PDF (sample_caps [padded_text] []) []
               = Some [padded_text]) by reflexivity.
  split; [exact H1|]. split; [exact H2|]. split; [exact H3|].
  exact (proj1 (native_text_kept_iff (sample_caps [padded_text] [])
                                     sample_upload (of_ascii "Scan.PDF")
                                     [] [padded_text] H1 H2 H3)).
Defined.

(** C3 as stated fails: a native text of nineteen letters and a space has
    stripped length 19, yet it is kept and no OCR engine is called. *)
Lemma native_threshold_counterexample :
  len (strip padded_text) = 19 /\
  update_output_tab1 (sample_caps [padded_text] []) (Some sample_upload)
                     (of_ascii "scan.pdf")
  = ([CallPdftotext], inr padded_text) /\
  ~ (update_output_tab1 (sample_caps [padded_text] []) (Some sample_upload)
                        (of_ascii "scan.pdf")
     = ([CallPdftotext], inr padded_text) <->
     20 <= len (strip padded_text)).
Proof.
  split; [reflexivity|]. split; [reflexivity|].
  intros [H _]. specialize (H eq_refl). vm_compute in H. now apply H.
Qed.

(** C8.  When the lower-cased file name does not end in ".pdf", both
    callbacks end with an exception and return nothing, and no engine is
    called, so neither pdf2image nor tesseract sees the file.  When the
    upload decodes (or there is no upload) the exception is
    [PreventUpdate]. *)
Theorem non_pdf_upload_rejected {Image} (caps : Capabilities Image)
        content name :
  endswith (lower caps name) (of_ascii ".pdf") = false ->
  let run1 := update_output_tab1 caps content name in
  let run2 := update_output_tab2 caps content name in
  log run1 = [] /\ log run2 = [] /\
  (exists e, outcome run1 = inl e /\ outcome run2 = inl e) /\
  (forall c decoded,
      content = Some c -> decode_upload caps c = ret decoded ->
      outcome run1 = inl PreventUpdate /\ outcome run2 = inl PreventUpdate) /\
  (content = None ->
   outcome run1 = inl PreventUpdate /\ outcome run2 = inl PreventUpdate).
Proof.
  intros Hn run1 run2. subst run1 run2.
  destruct (upload_text_non_pdf caps content name Hn) as (e & E & Hnone & Hdec).
  unfold update_output_tab2, update_output_tab1. rewrite E. cbn.
  split; [reflexivity|]. split; [reflexivity|].
  split; [now exists e|]. split.
  - intros c decoded Hc Hd. now rewrite (Hdec c decoded Hc Hd).
  - intros Hc. now rewrite (Hnone Hc).
Qed.

Lemma non_pdf_upload_rejected_witness :
  endswith (lower (sample_caps [] [of_ascii "a"]) (of_ascii "scan.PNG"))
           (of_ascii ".pdf") = false /\
  update_output_tab1 (sample_caps [] [of_ascii "a"]) (Some sample_upload)
                     (of_ascii "scan.PNG")
  = ([], inl PreventUpdate).
Proof.
  assert (H : endswith (lower (sample_caps [] [of_ascii "a"])
                              (of_ascii "scan.PNG"))
                       (of_ascii ".pdf") = false) by reflexivity.
  split; [exact H|].
  destruct (non_pdf_upload_rejected (sample_caps [] [of_ascii "a"])
                                    (Some sample_upload)
                                    (of_ascii "scan.PNG") H)
    as (L & _ & _ & P & _).
  destruct (P sample_upload [] eq_refl eq_refl) as [O _].
  destruct (update_output_tab1 (sample_caps [] [of_ascii "a"])
                               (Some sample_upload) (of_ascii "scan.PNG"))
    as [l o].
  cbn in L, O. now subst.
Defined.

Lemma section_map_order_witness :
  ~ occurs macro_marker clinical_report /\
  mem (get_partial_content clinical_report) "Macroscopic Description" = false
  /\ keys (get_partial_content clinical_report)
     = ["General Information"%string; "Clinical Information"%string;
        "Document Footer Information"%string].
Proof.
  assert (H : ~ occurs macro_marker clinical_report)
    by (apply find_absent; reflexivity).
  destruct (section_map_order clinical_report) as (K & _ & _ & _ & _ & A & _).
  split; [exact H|]. split.
  - apply (A "Macroscopic Description"%string macro_marker); [|exact H].
    right; right; right; left; reflexivity.
  - rewrite K. reflexivity.
Defined.

(* ================================================================== *)
(** ** Further properties of the segmentation *)

Section Pieces.

Local Open Scope string_scope.
Local Open Scope list_scope.

Lemma occurs_refl s : occurs s s.
Proof. exists [], []. now rewrite app_nil_r. Qed.

Lemma occurs_trans a b c : occurs a b -> occurs b c -> occurs a c.
Proof.
  intros (p & q & ->) (p' & q' & ->).
  exists (p' ++ p), (q ++ q'). now rewrite <- !app_assoc.
Qed.

Lemma occurs_slice_to s i : occurs (slice_to s i) s.
Proof.
  exists [], (slice_from s i). cbn. symmetry. apply slice_to_from.
Qed.

Lemma occurs_slice_from s i : occurs (slice_from s i) s.
Proof.
  exists (slice_to s i), []. rewrite app_nil_r. symmetry.
  apply slice_to_from.
Qed.

Lemma prefix_of_occurs w b : prefix_of w b -> occurs w b.
Proof. intros [q ->]. now exists [], q. Qed.

(** What precedes the first occurrence of a phrase does not contain it. *)
Lemma first_occurrence_clean m pre s :
  m <> [] -> first_occurrence m pre s -> ~ occurs m pre.
Proof.
  intros Hm [[post E] Hmin] (a & b & Hpre).
  specialize (Hmin a (b ++ m ++ post)).
  rewrite E, Hpre, <- !app_assoc in Hmin. specialize (Hmin eq_refl).
  rewrite !length_app in Hmin. destruct m; [congruence|cbn in Hmin; lia].
Qed.

(** The window a block leaves does not contain the block's phrase. *)
Lemma cut_clean w m : m <> [] -> ~ occurs m (cut w (find w m)).
Proof.
  intros Hm. unfold cut. destruct (find w m =? -1)%Z eqn:E; cbn [negb].
  - apply Z.eqb_eq in E. now apply find_absent.
  - apply Z.eqb_neq in E. apply (first_occurrence_clean m _ w Hm).
    now apply find_cut.
Qed.

Lemma header_in_text text : occurs (header (run_partial_content text)) text.
Proof.
  destruct (run_partial_content_shape text) as (Hs & _).
  rewrite split_header_shape in Hs.
  repeat match type of Hs with
         | context [if ?c then _ else _] => destruct c
         end; injection Hs as -> _; try apply occurs_slice_to.
  exists [], text. reflexivity.
Qed.

Lemma body0_in_text text : occurs (body0 (run_partial_content text)) text.
Proof.
  destruct (body_in_text text) as ([pre E] & _).
  exists pre, []. now rewrite app_nil_r.
Qed.

(** The entries of the body dictionary, each with the window it was cut
    from. *)
Lemma body_parts_entry_window b name v :
  In (name, v) (get_pathology_body_parts b) ->
  let p := run_pathology_body_parts b in
  (name = "Clinical Information" /\
   v = VStr (slice_from (body3 p) (clinical_info_prefix_index p))) \/
  (name = "Previous Tests" /\
   v = VStr (slice_from (body2 p) (prev_tests_prefix_index p))) \/
  (name = "Diagnosis" /\
   v = VStr (slice_from (body1 p) (diagnosis_prefix_index p))) \/
  (name = "Macroscopic Description" /\
   v = VStr (slice_from b (macro_prefix_index p))).
Proof.
  unfold get_pathology_body_parts.
  destruct (run_pathology_body_parts_shape b)
    as (_ & _ & _ & _ & _ & _ & _ & _ & ->).
  intros H. repeat (apply in_app_or in H as [H|H]);
    apply entry_In in H as (-> & _ & ->); auto 6.
Qed.

(** No window contains a phrase that an earlier block looked for. *)
Lemma windows_clean b :
  let p := run_pathology_body_parts b in
  ~ occurs macro_marker (body1 p) /\
  (~ occurs macro_marker (body2 p) /\ ~ occurs diagnosis_marker (body2 p)) /\
  (~ occurs macro_marker (body3 p) /\ ~ occurs diagnosis_marker (body3 p) /\
   ~ occurs prev_tests_marker (body3 p)).
Proof.
  pose proof (windows_nested b) as (N1 & N2 & N3 & _).
  destruct (run_pathology_body_parts_shape b)
    as (I1 & B1 & I2 & B2 & I3 & B3 & _).
  set (p := run_pathology_body_parts b) in *. cbn zeta.
  assert (C1 : ~ occurs macro_marker (body1 p)).
  { rewrite B1, I1. apply cut_clean. discriminate. }
  assert (C2 : ~ occurs diagnosis_marker (body2 p)).
  { rewrite B2, I2. apply cut_clean. discriminate. }
  assert (C3 : ~ occurs prev_tests_marker (body3 p)).
  { rewrite B3, I3. apply cut_clean. discriminate. }
  assert (C12 : ~ occurs macro_marker (body2 p)).
  { intros H. apply C1. eapply occurs_prefix; eassumption. }
  repeat split; auto.
  - intros H. apply C12. eapply occurs_prefix; eassumption.
  - intros H. apply C2. eapply occurs_prefix; eassumption.
Qed.

(** The body handed to the inner segmentation never contains the
    print-date phrase. *)
Lemma body_without_print_date text :
  ~ occurs postfix_marker (body (run_partial_content text)).
Proof.
  destruct (run_partial_content_shape text) as (_ & Hi & _ & Hb & _).
  set (r := run_partial_content text) in *. rewrite Hb, Hi.
  destruct (find (body0 r) postfix_marker =? -1)%Z eqn:E.
  - apply Z.eqb_eq in E. rewrite E. apply find_absent in E.
    intros H. apply E. eapply occurs_prefix; [exact H|apply slice_to_prefix].
  - apply Z.eqb_neq in E.
    apply (first_occurrence_clean postfix_marker _ (body0 r));
      [discriminate|now apply find_cut].
Qed.

End Pieces.

Lemma z_value_piece text name v :
  In (name, v) (get_partial_content text) ->
  exists s, v = VStr s /\ occurs s text.
Proof.
  intros H. pose proof (z_entries _ _ _ H) as [[_ ->]|[Hb|[_ ->]]].
  - eexists; split; [reflexivity|apply header_in_text].
  - apply body_parts_entries in Hb as (m & w & _ & Hw & _ & ->).
    eexists; split; [reflexivity|].
    apply (occurs_trans _ w); [apply occurs_slice_from|].
    apply (occurs_trans _ (body (run_partial_content text)));
      [now apply prefix_of_occurs|].
    apply (occurs_trans _ (body0 (run_partial_content text)));
      [|apply body0_in_text].
    apply prefix_of_occurs, (body_in_text text).
  - eexists; split; [reflexivity|].
    apply (occurs_trans _ (body0 (run_partial_content text)));
      [|apply body0_in_text].
    destruct (run_partial_content_shape text) as (_ & _ & -> & _).
    apply occurs_slice_from.
Qed.


(** X1.  Every value of the section map is a string, never [None], and a
    contiguous piece of the input text. *)
Theorem section_values_are_pieces_of_text text name v :
  In (name, v) (get_partial_content text) ->
  exists s, v = VStr s /\ occurs s text.
Proof. apply z_value_piece. Qed.

Lemma section_values_are_pieces_of_text_witness :
  In ("Document Footer Information"%string, VStr (of_ascii "c"))
     (get_partial_content undated_report) /\
  exists s, VStr (of_ascii "c") = VStr s /\ occurs s undated_report.
Proof.
  assert (H : In ("Document Footer Information"%string, VStr (of_ascii "c"))
                 (get_partial_content undated_report))
    by (right; right; left; reflexivity).
  split; [exact H|].
  exact (section_values_are_pieces_of_text undated_report _ _ H).
Defined.

(** X2.  A body section never holds the phrase of a section that was
    searched before it, nor the print-date phrase: Clinical Information
    holds none of the Previous Tests, Diagnosis and Macroscopic Description
    phrases, Previous Tests none of the last two, Diagnosis not the
    Macroscopic Description phrase, and none of the four holds the
    print-date phrase. *)
Theorem sections_do_not_hold_later_markers text s :
  let z := get_partial_content text in
  (In ("Clinical Information"%string, VStr s) z ->
   ~ occurs prev_tests_marker s /\ ~ occurs diagnosis_marker s /\
   ~ occurs macro_marker s /\ ~ occurs postfix_marker s) /\
  (In ("Previous Tests"%string, VStr s) z ->
   ~ occurs diagnosis_marker s /\ ~ occurs macro_marker s /\
   ~ occurs postfix_marker s) /\
  (In ("Diagnosis"%string, VStr s) z ->
   ~ occurs macro_marker s /\ ~ occurs postfix_marker s) /\
  (In ("Macroscopic Description"%string, VStr s) z ->
   ~ occurs postfix_marker s).
Proof.
  intros z. subst z. set (b := body (run_partial_content text)).
  pose proof (windows_nested b) as (N1 & N2 & N3 & _).
  pose proof (windows_clean b) as (C1 & (C2m & C2d) & (C3m & C3d & C3p)).
  pose proof (body_without_print_date text) as Cb. fold b in Cb.
  set (p := run_pathology_body_parts b) in *.
  assert (P2 : prefix_of (body2 p) b) by eauto using prefix_of_trans.
  assert (P3 : prefix_of (body3 p) b) by eauto using prefix_of_trans.
  assert (Hsub : forall m w i,
             ~ occurs m w -> ~ occurs m (slice_from w i)).
  { intros m w i Hn H. apply Hn.
    eapply occurs_trans; [exact H|apply occurs_slice_from]. }
  assert (Hdate : forall w i,
             prefix_of w b -> ~ occurs postfix_marker (slice_from w i)).
  { intros w i Hw. apply Hsub. intros H. apply Cb.
    eapply occurs_prefix; eassumption. }
  assert (Hbody : forall name,
             In (name, VStr s) (get_partial_content text) ->
             name <> "General Information"%string ->
             name <> "Document Footer Information"%string ->
             In (name, VStr s) (get_pathology_body_parts b)).
  { intros name H Hg Hf.
    apply z_entries in H as [[E _]|[H|[E _]]]; [contradiction|exact H|
                                                contradiction]. }
  repeat apply conj; intros H; apply Hbody in H; try discriminate;
    apply body_parts_entry_window in H as [[E V]|[[E V]|[[E V]|[E V]]]];
    try discriminate E; injection V as ->; fold p;
    repeat apply conj; auto.
Qed.

Lemma sections_do_not_hold_later_markers_witness :
  In ("Clinical Information"%string,
      VStr (clinical_info_marker ++ of_ascii "abc"))
     (get_partial_content clinical_report) /\
  ~ occurs postfix_marker (clinical_info_marker ++ of_ascii "abc").
Proof.
  assert (H : In ("Clinical Information"%string,
                  VStr (clinical_info_marker ++ of_ascii "abc"))
                 (get_partial_content clinical_report))
    by (right; left; reflexivity).
  split; [exact H|].
  destruct (sections_do_not_hold_later_markers
              clinical_report (clinical_info_marker ++ of_ascii "abc"))
    as (C & _).
  exact (proj2 (proj2 (proj2 (C H)))).
Defined.

(** X3.  When the print-date phrase occurs in the working body, the footer
    is the text from its first occurrence there to the end: it begins with
    the phrase, and the body in front of it is handed to the inner
    segmentation. *)
Theorem footer_begins_with_print_date text :
  let r := run_partial_content text in
  occurs postfix_marker (body0 r) ->
  get (get_partial_content text) "Document Footer Information"
  = VStr (footer r) /\
  startswith (footer r) postfix_marker = true /\
  body0 r = body r ++ footer r /\
  first_occurrence postfix_marker (body r) (body0 r).
Proof.
  intros r H.
  destruct (run_partial_content_shape text) as (_ & Hi & Hf & Hb & Hp & Hz).
  fold r in Hi, Hf, Hb, Hp, Hz.
  assert (Hfind : find (body0 r) postfix_marker <> -1).
  { intros E. now apply find_absent in E. }
  destruct (find_cut _ _ Hfind) as (Hfirst & Hstart & _).
  rewrite <- Hi in Hfirst, Hstart. rewrite <- Hf in Hstart.
  rewrite <- Hb in Hfirst.
  split; [|split; [exact Hstart|split; [|exact Hfirst]]].
  - unfold get_partial_content. fold r. rewrite Hz, Hp.
    unfold get_pathology_body_parts.
    destruct (run_pathology_body_parts_shape (body r))
      as (_ & _ & _ & _ & _ & _ & _ & _ & ->).
    unfold entry.
    repeat match goal with
           | |- context [if ?c then _ else _] => destruct c
           end; reflexivity.
  - rewrite Hb, Hf. symmetry. apply slice_to_from.
Qed.

Lemma footer_begins_with_print_date_witness :
  occurs postfix_marker (body0 (run_partial_content clinical_report)) /\
  startswith (footer (run_partial_content clinical_report)) postfix_marker
  = true.
Proof.
  assert (H : occurs postfix_marker
                     (body0 (run_partial_content clinical_report))).
  { exists (clinical_info_marker ++ of_ascii "abc"), (of_ascii "f").
    reflexivity. }
  split; [exact H|].
  exact (proj1 (proj2 (footer_begins_with_print_date clinical_report H))).
Defined.

(** X4.  When a "body begins" phrase occurs in the text, the footer is
    never empty and is the end of the text: without a print-date phrase it
    is the last character of the text. *)
Theorem footer_nonempty_when_body_found text :
  (exists p, In p prefix_options /\ occurs p text) ->
  let r := run_partial_content text in
  footer r <> [] /\ (exists pre, text = pre ++ footer r) /\
  (~ occurs postfix_marker (body0 r) ->
   len (footer r) = 1 /\ exists pre, text = pre ++ footer r).
Proof.
  intros H r.
  destruct (run_partial_content_shape text) as (Hs & Hi & Hf & Hb & _).
  fold r in Hs, Hi, Hf, Hb.
  destruct (split_header_found text prefix_options [] [] H)
    as (p & before & after & Hopts & _ & Hfind & E).
  rewrite E in Hs. injection Hs as Hh Hb0.
  assert (Hp : p <> []).
  { assert (Hin : In p prefix_options)
      by (rewrite Hopts; apply in_or_app; right; now left).
    destruct Hin as [<-|[<-|[<-|[]]]]; discriminate. }
  assert (Hne : body0 r <> []).
  { destruct (find_cut _ _ Hfind) as (_ & Hst & _). rewrite <- Hb0 in Hst.
    apply startswith_length in Hst. intros E0. rewrite E0 in Hst.
    destruct p; [congruence|cbn in Hst; lia]. }
  assert (Hsuf : exists pre, text = pre ++ footer r).
  { destruct (body_in_text text) as ([pre Et] & _). fold r in Et.
    exists (pre ++ body r). rewrite <- app_assoc, Hb, Hf, slice_to_from.
    exact Et. }
  assert (Habs : ~ occurs postfix_marker (body0 r) -> len (footer r) = 1).
  { intros Ho. now apply (footer_cut_without_marker text Ho). }
  repeat apply conj; auto.
  destruct (find (body0 r) postfix_marker =? -1)%Z eqn:Ef.
  - apply Z.eqb_eq in Ef. apply find_absent, Habs in Ef.
    intros E0. rewrite E0 in Ef. discriminate Ef.
  - apply Z.eqb_neq in Ef. destruct (find_cut _ _ Ef) as (_ & Hst & _).
    rewrite <- Hi, <- Hf in Hst. apply startswith_length in Hst.
    intros E0. rewrite E0 in Hst. cbn in Hst. lia.
Qed.

Lemma footer_nonempty_when_body_found_witness :
  (exists p, In p prefix_options /\ occurs p undated_report) /\
  footer (run_partial_content undated_report) <> [].
Proof.
  assert (H : exists p, In p prefix_options /\ occurs p undated_report).
  { exists prefix_clinical. split; [left; reflexivity|].
    exists [], (of_ascii "abc"). reflexivity. }
  split; [exact H|].
  exact (proj1 (footer_nonempty_when_body_found undated_report H)).
Defined.

(* ================================================================== *)
(** ** Further properties of the extraction *)

Section Engines.

Context {Image : Type} (caps : Capabilities Image).

Lemma bind_log {A B} (m : M A) (k : A -> M B) :
  exists l, log (bind m k) = log m ++ l /\
            (forall a, outcome m = inr a -> l = log (k a)) /\
            (forall e, outcome m = inl e -> l = []).
Proof.
  destruct m as [l [e|a]]; cbn.
  - exists []. rewrite app_nil_r. repeat split; congruence.
  - destruct (k a) as [l' r] eqn:E. exists l'. cbn.
    repeat split; [|congruence]. intros a' [= <-]. now rewrite E.
Qed.

(** OCR of a list of pages calls tesseract some number of times, at most
    once per page, and nothing else. *)
Lemma mapM_tesseract_log images :
  exists k, (k <= List.length images)%nat /\
    log (mapM (fun image => invoke CallTesseract TesseractError
                                   (image_to_string caps image "heb+eng"))
              images) = repeat CallTesseract k.
Proof.
  induction images as [|image images (k & Hk & IH)].
  - exists O. split; [cbn; lia|reflexivity].
  - cbn [mapM]. unfold invoke at 1.
    destruct (image_to_string caps image "heb+eng") as [o|]; cbn.
    + destruct (mapM _ images) as [l [e|outs]]; cbn in IH |- *;
        exists (S k); (split; [lia|]); cbn; rewrite ?app_nil_r; now f_equal.
    + exists 1%nat. split; [lia|reflexivity].
Qed.

Lemma extract_text_from_images_log images :
  exists k, (k <= List.length images)%nat /\
            log (extract_text_from_images caps images)
            = repeat CallTesseract k.
Proof.
  destruct (mapM_tesseract_log images) as (k & Hk & E).
  exists k. split; [exact Hk|]. unfold extract_text_from_images.
  destruct (mapM _ images) as [l [e|outs]]; cbn in E |- *;
    rewrite ?app_nil_r; exact E.
Qed.

Lemma upload_text_log content name :
  exists k,
    log (upload_text caps content name) = [] \/
    log (upload_text caps content name) = [CallPdftotext] \/
    log (upload_text caps content name)
    = CallPdftotext :: CallPdf2image :: repeat CallTesseract k.
Proof.
  unfold upload_text. destruct content as [c|]; [|exists O; now left].
  destruct (decode_upload_log caps c) as [[e|d] E]; rewrite E; cbn [bind];
    [exists O; now left|].
  destruct (endswith _ _); [|exists O; now left].
  unfold extract_text_from_pdf, invoke.
  destruct (pdftotext_PDF caps d) as [pages|]; cbn [bind ret app];
    [|exists O; right; now left].
  destruct (needs_ocr _); [|exists O; right; now left].
  unfold pdf_to_images, invoke.
  destruct (convert_from_bytes caps d) as [images|]; cbn [bind].
  - destruct (extract_text_from_images_log images) as (k & _ & Ek).
    destruct (extract_text_from_images caps images) as [l o].
    cbn in Ek |- *. exists k. right; right. now rewrite Ek.
  - exists O. right; right. reflexivity.
Qed.

Lemma split_length sep s :
  List.length (split sep s) = S (count_occ N.eq_dec s sep).
Proof.
  induction s as [|c s IH]; [reflexivity|]. cbn [split count_occ].
  destruct (N.eqb_spec c sep) as [->|Hne].
  - destruct (N.eq_dec sep sep); [|congruence]. cbn. now rewrite IH.
  - destruct (N.eq_dec c sep); [congruence|].
    destruct (split sep s); cbn in *; [discriminate|exact IH].
Qed.

Lemma split_nonempty sep s : split sep s <> [].
Proof.
  intros E. pose proof (split_length sep s) as H. now rewrite E in H.
Qed.

Lemma lstrip_blank s : forallb isspace s = true -> lstrip s = [].
Proof.
  induction s as [|c s IH]; cbn; [reflexivity|].
  intros H. apply andb_true_iff in H as [-> Hs]. auto.
Qed.

Lemma strip_blank s : forallb isspace s = true -> strip s = [].
Proof. intros H. unfold strip. now rewrite (lstrip_blank s H). Qed.

Lemma join_blank sep pages :
  forallb isspace sep = true ->
  Forall (fun page => forallb isspace page = true) pages ->
  forallb isspace (join sep pages) = true.
Proof.
  intros Hsep. induction 1 as [|page pages Hp _ IH]; [reflexivity|].
  destruct pages as [|q pages]; [exact Hp|].
  change (join sep (page :: q :: pages))
    with (page ++ sep ++ join sep (q :: pages)).
  now rewrite !forallb_app, Hp, Hsep, IH.
Qed.

End Engines.

(** X5.  Whatever is uploaded, a callback calls the engines in one of three
    ways: not at all; pdftotext once; or pdftotext once, then pdf2image
    once, then tesseract only.  OCR never runs before the native extraction
    was tried, and both callbacks make the same calls. *)
Theorem engines_called_in_order {Image} (caps : Capabilities Image)
        content name :
  log (update_output_tab2 caps content name)
  = log (update_output_tab1 caps content name) /\
  exists k,
    log (update_output_tab1 caps content name) = [] \/
    log (update_output_tab1 caps content name) = [CallPdftotext] \/
    log (update_output_tab1 caps content name)
    = CallPdftotext :: CallPdf2image :: repeat CallTesseract k.
Proof.
  split; [apply log_tab2|apply upload_text_log].
Qed.

(** X6.  When pdftotext cannot read an uploaded PDF, both callbacks end
    with its error; the OCR path is not tried in its place. *)
Theorem pdftotext_failure_is_not_retried_by_ocr
        {Image} (caps : Capabilities Image) c name decoded :
  decode_upload caps c = ret decoded ->
  endswith (lower caps name) (of_ascii ".pdf") = true ->
  pdftotext_PDF caps decoded = None ->
  update_output_tab1 caps (Some c) name = ([CallPdftotext], inl PdftotextError)
  /\ update_output_tab2 caps (Some c) name
     = ([CallPdftotext], inl PdftotextError).
Proof.
  intros Hd Hn Hp.
  assert (E : upload_text caps (Some c) name
              = ([CallPdftotext], inl PdftotextError)).
  { unfold upload_text. rewrite Hd. cbn [bind ret]. rewrite Hn.
    unfold extract_text_from_pdf, invoke. now rewrite Hp. }
  unfold update_output_tab2, update_output_tab1. now rewrite E.
Qed.

(** X7.  OCR stops at the first page tesseract fails on: the pages before
    it have been read, the pages after it are not, and the text of the
    pages read is lost. *)
Theorem ocr_stops_at_first_failing_page
        {Image} (caps : Capabilities Image) done outs bad rest :
  Forall2 (fun image o => image_to_string caps image "heb+eng" = Some o)
          done outs ->
  image_to_string caps bad "heb+eng" = None ->
  extract_text_from_images caps (done ++ bad :: rest)
  = (repeat CallTesseract (S (List.length done)), inl TesseractError).
Proof.
  intros Hdone Hbad. unfold extract_text_from_images.
  assert (E : mapM (fun image => invoke CallTesseract TesseractError
                                   (image_to_string caps image "heb+eng"))
                   (done ++ bad :: rest)
              = (repeat CallTesseract (S (List.length done)),
                 inl TesseractError)).
  { induction Hdone as [|image o done outs Ho _ IH].
    - cbn. now rewrite Hbad.
    - cbn [app mapM]. rewrite Ho, IH. reflexivity. }
  now rewrite E.
Qed.

(** X8.  When the native text is insufficient and pdf2image cannot
    rasterise the PDF, the callback ends with its error and tesseract is
    not called. *)
Theorem rasterisation_failure_stops_ocr
        {Image} (caps : Capabilities Image) c name decoded pages :
  decode_upload caps c = ret decoded ->
  endswith (lower caps name) (of_ascii ".pdf") = true ->
  pdftotext_PDF caps decoded = Some pages ->
  needs_ocr (join (newline ++ newline) pages) = true ->
  convert_from_bytes caps decoded = None ->
  update_output_tab1 caps (Some c) name
  = ([CallPdftotext; CallPdf2image], inl Pdf2imageError).
Proof.
  intros Hd Hn Hp Ho Hc. unfold update_output_tab1.
  rewrite (upload_text_pdf caps c name decoded pages Hd Hn Hp).
  cbn zeta. rewrite Ho. unfold pdf_to_images, invoke. now rewrite Hc.
Qed.





(** X10.  [split] and [join] are inverse: the pieces, joined with the
    separator, give the string back, and no piece holds the separator. *)
Theorem split_join_round_trip sep s :
  join [sep] (split sep s) = s /\
  Forall (fun piece => ~ In sep piece) (split sep s).
Proof.
  induction s as [|c s [IHj IHf]]; [split; [reflexivity|]|].
  { constructor; [intros []|constructor]. }
  cbn [split].
  destruct (split sep s) as [|p ps] eqn:E; [now apply split_nonempty in E|].
  destruct (N.eqb_spec c sep) as [->|Hne].
  - split; [|constructor; [intros []|exact IHf]].
    change (join [sep] ([] :: p :: ps))
      with ([] ++ [sep] ++ join [sep] (p :: ps)).
    now rewrite IHj.
  - split.
    + rewrite <- IHj. destruct ps; reflexivity.
    + inversion IHf as [|? ? Hp Hps]; subst. constructor; [|exact Hps].
      intros [->|H]; [congruence|contradiction].
Qed.

(** X11.  A PDF whose text layer is blank (no page, or pages of whitespace
    only) always goes to the OCR path. *)
Theorem blank_native_text_goes_to_ocr
        {Image} (caps : Capabilities Image) c name decoded pages :
  decode_upload caps c = ret decoded ->
  endswith (lower caps name) (of_ascii ".pdf") = true ->
  pdftotext_PDF caps decoded = Some pages ->
  Forall (fun page => forallb isspace page = true) pages ->
  In CallPdf2image (log (update_output_tab1 caps (Some c) name)) /\
  In CallPdf2image (log (update_output_tab2 caps (Some c) name)).
Proof.
  intros Hd Hn Hp Hblank.
  assert (Ho : needs_ocr (join (newline ++ newline) pages) = true).
  { apply needs_ocr_true. left. apply strip_blank.
    now apply join_blank. }
  rewrite log_tab2. unfold update_output_tab1.
  rewrite (upload_text_pdf caps c name decoded pages Hd Hn Hp).
  cbn zeta. rewrite Ho.
  destruct (ocr_path_log caps decoded) as (l & o & ->).
  cbn. auto.
Qed.

(* ================================================================== *)
(** ** Facts about received values *)

Section PyvalInduction.

Variable P : pyval -> Prop.
Hypothesis HNone : P PNone.
Hypothesis HBool : forall b, P (PBool b).
Hypothesis HInt : forall n, P (PInt n).
Hypothesis HStr : forall s, P (PStr s).
Hypothesis HList : forall l, Forall P l -> P (PList l).
Hypothesis HDict : forall d, Forall (fun kv => P (snd kv)) d -> P (PDict d).

(** Induction on a received value, with the hypothesis for every item of a
    list and every value of a dictionary. *)
Fixpoint pyval_nested_ind (v : pyval) : P v :=
  match v with
  | PNone => HNone
  | PBool b => HBool b
  | PInt n => HInt n
  | PStr s => HStr s
  | PList l =>
      HList l ((fix go (l : list pyval) : Forall P l :=
                  match l with
                  | [] => Forall_nil _
                  | x :: l' => Forall_cons x (pyval_nested_ind x) (go l')
                  end) l)
  | PDict d =>
      HDict d ((fix go (d : list (string * pyval))
                  : Forall (fun kv => P (snd kv)) d :=
                  match d with
                  | [] => Forall_nil _
                  | kv :: d' =>
                      Forall_cons kv (pyval_nested_ind (snd kv)) (go d')
                  end) d)
  end.

End PyvalInduction.

Section Collect.

Local Open Scope string_scope.
Local Open Scope list_scope.

Lemma recurse_list_cons x l result :
  recurse (PList (x :: l)) result = recurse (PList l) (recurse x result).
Proof. reflexivity. Qed.

Lemma recurse_dict_cons key value d result :
  recurse (PDict ((key, value) :: d)) result =
  recurse (PDict d)
          (match value with
           | PStr s => if String.eqb key "children" then result ++ [s]
                       else result
           | PDict _ | PList _ => recurse value result
           | _ => result
           end).
Proof. reflexivity. Qed.

Lemma children_strings_list_cons x l :
  children_strings (PList (x :: l))
  = children_strings x ++ children_strings (PList l).
Proof. reflexivity. Qed.

Lemma children_strings_dict_cons key value d :
  children_strings (PDict ((key, value) :: d)) =
  (match value with
   | PStr s => if String.eqb key "children" then [s] else []
   | PDict _ | PList _ => children_strings value
   | _ => []
   end) ++ children_strings (PDict d).
Proof. reflexivity. Qed.

(** The function with the result list handed through appends to it what
    the function of the data alone collects. *)
Lemma recurse_appends item :
  forall result, recurse item result = result ++ children_strings item.
Proof.
  induction item as [| | | |l IH|d IH] using pyval_nested_ind;
    intros result; try (cbn; now rewrite app_nil_r).
  - revert result. induction IH as [|x l Hx _ IHl]; intros result.
    + cbn. now rewrite app_nil_r.
    + rewrite recurse_list_cons, children_strings_list_cons, IHl, Hx.
      now rewrite app_assoc.
  - revert result. induction IH as [|[key value] d Hv _ IHd]; intros result.
    + cbn. now rewrite app_nil_r.
    + rewrite recurse_dict_cons, children_strings_dict_cons, IHd.
      cbn [snd] in Hv.
      destruct value; rewrite ?Hv, ?app_assoc, ?app_nil_r; try reflexivity.
      destruct (String.eqb key "children"); now rewrite ?app_nil_r.
Qed.

Lemma children_strings_list_app l1 l2 :
  children_strings (PList (l1 ++ l2))
  = children_strings (PList l1) ++ children_strings (PList l2).
Proof.
  induction l1 as [|x l1 IH]; [reflexivity|].
  cbn [app]. rewrite !children_strings_list_cons, IH. now rewrite app_assoc.
Qed.

Lemma children_strings_dict_In d s :
  In s (children_strings (PDict d)) <->
  exists key value,
    In (key, value) d /\
    match value with
    | PStr s' => key = "children" /\ s' = s
    | PDict _ | PList _ => In s (children_strings value)
    | _ => False
    end.
Proof.
  induction d as [|[key value] d IH].
  - cbn. split; [intros []|intros (? & ? & [] & _)].
  - rewrite children_strings_dict_cons, in_app_iff, IH. split.
    + intros [H|(k & v & Hin & H)].
      * exists key, value. split; [now left|].
        destruct value; try (exact H); try (destruct H; fail).
        destruct (String.eqb_spec key "children"); [|destruct H].
        destruct H as [->|[]]. now split.
      * exists k, v. split; [now right|exact H].
    + intros (k & v & [Heq|Hin] & Hm).
      * injection Heq as <- <-. left.
        destruct value; try exact Hm; try (destruct Hm; fail).
        destruct Hm as [-> ->]. cbn. now left.
      * right. now exists k, v.
Qed.

Lemma children_strings_list_In l s :
  In s (children_strings (PList l)) <->
  exists v, In v l /\ In s (children_strings v).
Proof.
  induction l as [|x l IH].
  - cbn. split; [intros []|intros (? & [] & _)].
  - rewrite children_strings_list_cons, in_app_iff, IH. split.
    + intros [H|(v & Hin & H)]; [exists x|exists v]; split; auto;
        [now left|now right].
    + intros (v & [<-|Hin] & H); [now left|right; now exists v].
Qed.

Lemma exported_scalar v s :
  exported v s ->
  match v with PList _ | PDict _ => True | _ => False end.
Proof. now destruct 1. Qed.

End Collect.

Section Exported.

Local Open Scope string_scope.
Local Open Scope list_scope.

Lemma children_strings_exported v :
  forall t, In t (children_strings v) -> exported v t.
Proof.
  induction v as [| | | |l IH|d IH] using pyval_nested_ind; intros t H;
    try (destruct H; fail).
  - apply children_strings_list_In in H as (x & Hin & Hs).
    rewrite Forall_forall in IH. eauto using exported_item.
  - apply children_strings_dict_In in H as (key & value & Hin & Hs).
    rewrite Forall_forall in IH. specialize (IH _ Hin). cbn [snd] in IH.
    destruct value; try (destruct Hs; fail).
    + destruct Hs as [-> ->]. now apply exported_here.
    + eauto using exported_dict_list.
    + eauto using exported_dict_dict.
Qed.

Lemma exported_children_strings v s :
  exported v s -> In s (children_strings v).
Proof.
  induction 1 as [d s Hin|d key d' s Hin _ IH|d key l s Hin _ IH
                  |l v s Hin _ IH].
  - apply children_strings_dict_In. exists "children", (PStr s). auto.
  - apply children_strings_dict_In. exists key, (PDict d'). auto.
  - apply children_strings_dict_In. exists key, (PList l). auto.
  - apply children_strings_list_In. now exists v.
Qed.

End Exported.

(** X12.  The strings [extract_children_values] joins are exactly the
    string values of a key ['children'] reachable from the data through
    lists and dictionaries: a string under any other key, and a string that
    is an item of a list, is not exported. *)
Theorem exported_strings_are_children_values data s :
  In s (recurse data []) <-> exported data s.
Proof.
  rewrite recurse_appends. cbn [app]. split.
  - apply children_strings_exported.
  - apply exported_children_strings.
Qed.

(** X13.  Exporting a list of components gives the exports of its parts,
    in the order of the list: the strings of the items of [l1 ++ l2] are
    those of [l1] followed by those of [l2]. *)
Theorem exported_strings_follow_list_order l1 l2 :
  recurse (PList (l1 ++ l2)) []
  = recurse (PList l1) [] ++ recurse (PList l2) [].
Proof.
  rewrite !recurse_appends. cbn [app]. apply children_strings_list_app.
Qed.

(** X14.  A list whose items are strings, numbers, booleans or [None]
    exports nothing, alone or as the value of any key of a dictionary: the
    texts of a component whose children are given as a list of plain
    strings are not saved. *)
Theorem plain_items_are_not_exported l key :
  Forall (fun v => match v with PList _ | PDict _ => False | _ => True end)
         l ->
  extract_children_values (PList l) = [] /\
  extract_children_values (PDict [(key, PList l)]) = [].
Proof.
  intros H.
  assert (E : children_strings (PList l) = []).
  { induction H as [|v l Hv _ IH]; [reflexivity|].
    rewrite children_strings_list_cons, IH.
    destruct v; try reflexivity; destruct Hv. }
  unfold extract_children_values. rewrite !recurse_appends. cbn [app].
  rewrite children_strings_dict_cons, E. split; reflexivity.
Qed.

Lemma plain_items_are_not_exported_witness :
  Forall (fun v => match v with PList _ | PDict _ => False | _ => True end)
         [PStr (of_ascii "[Drag & Drop or "); PStr (of_ascii "]")] /\
  extract_children_values
    (PDict [("children"%string,
             PList [PStr (of_ascii "[Drag & Drop or ");
                    PStr (of_ascii "]")])]) = [].
Proof.
  assert (H : Forall (fun v => match v with
                               | PList _ | PDict _ => False
                               | _ => True
                               end)
                     [PStr (of_ascii "[Drag & Drop or ");
                      PStr (of_ascii "]")])
    by (repeat constructor).
  split; [exact H|].
  exact (proj2 (plain_items_are_not_exported _ "children"%string H)).
Defined.

(* ================================================================== *)
(** ** Facts about [replace] *)

Section Replace.

Implicit Types s old new pre post : str.

(** An occurrence of a phrase cannot lie across a character the phrase
    does not have. *)
Lemma occurs_across_char m a c b :
  ~ In c m -> occurs m (a ++ c :: b) -> occurs m a \/ occurs m b.
Proof.
  intros Hc (p & q & E). apply app_eq_app in E as [l [[Ea Eb]|[Ep Eb]]].
  - symmetry in Eb. apply app_eq_app in Eb as [l2 [[Em Ec]|[El Eq]]].
    + left. exists p, l2. now rewrite Ea, Em.
    + destruct l2 as [|c' l2].
      * left. exists p, []. rewrite app_nil_r in El. subst.
        now rewrite app_nil_r.
      * injection Eq as <- _. exfalso. apply Hc. rewrite El.
        apply in_or_app. right. now left.
  - destruct l as [|c' l].
    + destruct m as [|c' m].
      * left. exists a, []. now rewrite app_nil_r.
      * injection Eb as <- _. exfalso. apply Hc. now left.
    + injection Eb as _ ->. right. now exists l, q.
Qed.

Lemma replace_from_skip old new k s :
  replace_from old new k s = replace_from old new O (skipn k s).
Proof.
  revert k; induction s as [|c s IH]; intros [|k]; try reflexivity.
  cbn [replace_from skipn]. apply IH.
Qed.

Lemma replace_at_start o old new post :
  replace_from (o :: old) new O ((o :: old) ++ post)
  = new ++ replace_from (o :: old) new O post.
Proof.
  cbn [app]. cbn [replace_from].
  change (o :: old ++ post) with ((o :: old) ++ post).
  rewrite startswith_app. f_equal.
  replace (List.length (o :: old) - 1)%nat with (List.length old)
    by (cbn [List.length]; lia).
  now rewrite replace_from_skip, skipn_app_exact.
Qed.

Lemma replace_not_at_start old new c s :
  startswith (c :: s) old = false ->
  replace_from old new O (c :: s) = c :: replace_from old new O s.
Proof. intros H. cbn [replace_from]. now rewrite H. Qed.

Lemma occurs_tail m c s : occurs m s -> occurs m (c :: s).
Proof. intros (p & q & ->). now exists (c :: p), q. Qed.

(** Without an occurrence nothing is replaced. *)
Lemma replace_from_absent old new s :
  ~ occurs old s -> replace_from old new O s = s.
Proof.
  induction s as [|c s IH]; intros H; [reflexivity|].
  rewrite replace_not_at_start.
  - f_equal. apply IH. intros Ho. apply H. now apply occurs_tail.
  - destruct (startswith (c :: s) old) eqn:E; [|reflexivity].
    exfalso. apply H. destruct (startswith_inv _ _ E) as [post ->].
    now exists [], post.
Qed.

(** The text in front of the first occurrence is kept, the occurrence is
    replaced, and the replacing goes on behind it. *)
Lemma replace_from_first o old new pre post :
  first_occurrence (o :: old) pre (pre ++ (o :: old) ++ post) ->
  replace_from (o :: old) new O (pre ++ (o :: old) ++ post)
  = pre ++ new ++ replace_from (o :: old) new O post.
Proof.
  induction pre as [|c pre IH]; intros [_ Hmin].
  - apply replace_at_start.
  - cbn [app]. rewrite replace_not_at_start.
    + f_equal. apply IH. split; [now exists post|].
      intros pre' post' E.
      assert (L : (List.length (c :: pre) <= List.length (c :: pre'))%nat).
      { apply (Hmin (c :: pre') post'). cbn [app]. f_equal. exact E. }
      cbn in L. lia.
    + destruct (startswith _ _) eqn:E; [|reflexivity]. exfalso.
      destruct (startswith_inv _ _ E) as [post' E'].
      specialize (Hmin [] post' E'). cbn in Hmin. lia.
Qed.

(** Where an occurrence of [old] cannot lie across an inserted [new], no
    occurrence of [old] is left. *)
Lemma replace_from_leaves_none o old new :
  (forall a b, occurs (o :: old) (a ++ new ++ b) ->
               occurs (o :: old) a \/ occurs (o :: old) b) ->
  forall s, ~ occurs (o :: old) (replace_from (o :: old) new O s).
Proof.
  intros Hacross s.
  remember (List.length s) as n eqn:Hn. revert s Hn.
  induction n as [n IH] using lt_wf_ind. intros s Hn.
  destruct (find s (o :: old) =? -1) eqn:E.
  - apply Z.eqb_eq, find_absent in E. now rewrite replace_from_absent.
  - apply Z.eqb_neq in E. destruct (find_cut _ _ E) as (Hfirst & _).
    set (pre := slice_to s (find s (o :: old))) in *.
    destruct Hfirst as [[post Es] Hmin].
    assert (Hf : first_occurrence (o :: old) pre (pre ++ (o :: old) ++ post)).
    { split; [now exists post|]. now rewrite <- Es. }
    rewrite Es, (replace_from_first _ _ _ _ _ Hf).
    intros H. apply Hacross in H as [H|H].
    + revert H. apply (first_occurrence_clean (o :: old) pre s);
        [discriminate|]. split; [now exists post|exact Hmin].
    + revert H. apply (IH (List.length post)); [|reflexivity].
      rewrite Hn, Es, !length_app. cbn. lia.
Qed.

End Replace.

Lemma br_across_newline a b :
  occurs br (a ++ newline ++ b) -> occurs br a \/ occurs br b.
Proof.
  apply occurs_across_char. cbn. intros [H|[H|[H|[H|[]]]]]; discriminate H.
Qed.

Lemma replace_br_leaves_none s : ~ occurs br (replace s br newline).
Proof.
  exact (replace_from_leaves_none 60%N (of_ascii "br>") newline
                                  br_across_newline s).
Qed.

Lemma replace_br_absent s : ~ occurs br s -> replace s br newline = s.
Proof. exact (replace_from_absent br newline s). Qed.

(** X15.  What the two save callbacks hand to the download never holds the
    text ["<br>"]. *)
Theorem saved_text_has_no_br n text value d :
  (save_text_tab1 n text = inr d -> ~ occurs br (content d)) /\
  (save_text_tab2 n value = inr d -> ~ occurs br (content d)).
Proof.
  split.
  - unfold save_text_tab1. destruct text as [t|]; [|discriminate].
    destruct (negb (truthy t)); [discriminate|].
    intros [= <-]. apply replace_br_leaves_none.
  - unfold save_text_tab2. destruct (negb (truthy_val value));
      [discriminate|].
    intros [= <-]. apply replace_br_leaves_none.
Qed.

Lemma saved_text_has_no_br_witness :
  save_text_tab1 1 (Some (of_ascii "a<br>b"))
  = inr {| content := [97; 10; 98]%N;
           filename := "extracted_text_tab1.txt" |} /\
  ~ occurs br [97; 10; 98]%N.
Proof.
  assert (H : save_text_tab1 1 (Some (of_ascii "a<br>b"))
              = inr {| content := [97; 10; 98]%N;
                       filename := "extracted_text_tab1.txt" |})
    by reflexivity.
  split; [exact H|].
  exact (proj1 (saved_text_has_no_br 1 (Some (of_ascii "a<br>b")) PNone _)
               H).
Defined.

(** X16.  A non-empty text without ["<br>"] is saved as it is, under the
    name extracted_text_tab1.txt; no text, or an empty one, ends the
    callback with [PreventUpdate]. *)
Theorem text_without_br_is_saved_unchanged n text :
  text <> [] -> ~ occurs br text ->
  save_text_tab1 n (Some text)
  = inr {| content := text; filename := "extracted_text_tab1.txt" |} /\
  save_text_tab1 n None = inl PreventUpdate /\
  save_text_tab1 n (Some []) = inl PreventUpdate.
Proof.
  intros Hne Hbr. repeat split.
  unfold save_text_tab1. destruct text as [|c text]; [congruence|].
  cbn [truthy negb]. now rewrite (replace_br_absent _ Hbr).
Qed.

Lemma text_without_br_is_saved_unchanged_witness :
  of_ascii "abc" <> [] /\ ~ occurs br (of_ascii "abc") /\
  save_text_tab1 1 (Some (of_ascii "abc"))
  = inr {| content := of_ascii "abc";
           filename := "extracted_text_tab1.txt" |}.
Proof.
  assert (H1 : of_ascii "abc" <> []) by discriminate.
  assert (H2 : ~ occurs br (of_ascii "abc"))
    by (apply find_absent; reflexivity).
  split; [exact H1|]. split; [exact H2|].
  exact (proj1 (text_without_br_is_saved_unchanged 1 _ H1 H2)).
Defined.

(** X17.  [replace] works from left to right: the text in front of the
    first occurrence of a non-empty [old] is kept, the occurrence becomes
    [new], and the replacing goes on behind it; a text without an
    occurrence is returned as it is. *)
Theorem replace_goes_left_to_right old new pre post :
  old <> [] ->
  first_occurrence old pre (pre ++ old ++ post) ->
  replace (pre ++ old ++ post) old new = pre ++ new ++ replace post old new
  /\ (forall s, ~ occurs old s -> replace s old new = s).
Proof.
  intros Hne Hfirst. destruct old as [|o old]; [congruence|].
  unfold replace. split.
  - now apply replace_from_first.
  - intros s. apply replace_from_absent.
Qed.

Lemma replace_goes_left_to_right_witness :
  br <> [] /\
  first_occurrence br (of_ascii "a<b")
                   (of_ascii "a<b" ++ br ++ of_ascii "r><br>") /\
  replace (of_ascii "a<b" ++ br ++ of_ascii "r><br>") br newline
  = of_ascii "a<b" ++ newline ++ replace (of_ascii "r><br>") br newline.
Proof.
  assert (H1 : br <> []) by discriminate.
  assert (H2 : first_occurrence br (of_ascii "a<b")
                 (of_ascii "a<b" ++ br ++ of_ascii "r><br>")).
  { assert (Hi : find (of_ascii "a<b" ++ br ++ of_ascii "r><br>") br <> -1)
      by (vm_compute; discriminate).
    exact (proj1 (find_cut _ _ Hi)). }
  split; [exact H1|]. split; [exact H2|].
  exact (proj1 (replace_goes_left_to_right br newline _ _ H1 H2)).
Defined.


(* ================================================================== *)
(** ** The children of the pathology tab *)

Section Children.

Local Open Scope string_scope.
Local Open Scope list_scope.

(** The comparison [list.remove] makes: an item is equal to itself, and
    equal items have equal ['type'] entries. *)
Variable eqv : pyval -> pyval -> bool.
Hypothesis eqv_refl : forall v, eqv v v = true.
Hypothesis eqv_div : forall a b, eqv a b = true -> div_child a = div_child b.

Lemma other_is_not_div j : other_child j = true -> div_child j = false.
Proof.
  unfold other_child, div_child. destruct (subscript j "type"); [auto|].
  now destruct (is_Div _).
Qed.

Lemma child_cases j :
  (exists e, subscript j "type" = inl e) \/
  div_child j = true \/ other_child j = true.
Proof.
  unfold other_child, div_child.
  destruct (subscript j "type") as [e|t]; [left; now exists e|right].
  destruct (is_Div t); auto.
Qed.

(** Every list of children is of one of three kinds. *)
Lemma children_cases l :
  forallb other_child l = true \/
  (exists before d after,
      l = before ++ d :: after /\ forallb other_child before = true /\
      div_child d = true) \/
  (exists before bad after e,
      l = before ++ bad :: after /\ forallb other_child before = true /\
      subscript bad "type" = inl e).
Proof.
  induction l as [|j l IH]; [now left|].
  destruct (child_cases j) as [[e He]|[Hd|Ho]].
  - right; right. now exists [], j, l, e.
  - right; left. now exists [], j, l.
  - destruct IH as [H|[(b & d & a & -> & Hb & Hd)|(b & x & a & e & -> & Hb & He)]].
    + left. cbn. now rewrite Ho.
    + right; left. exists (j :: b), d, a. cbn. now rewrite Ho.
    + right; right. exists (j :: b), x, a, e. cbn. now rewrite Ho.
Qed.

Lemma list_remove_first_div before d after :
  forallb other_child before = true -> div_child d = true ->
  list_remove eqv d (before ++ d :: after) = Some (before ++ after).
Proof.
  intros Hb Hd. induction before as [|y before IH]; cbn.
  - now rewrite eqv_refl.
  - cbn in Hb. apply andb_true_iff in Hb as [Hy Hb].
    destruct (eqv y d) eqn:E.
    + apply eqv_div in E. rewrite Hd, (other_is_not_div _ Hy) in E.
      discriminate.
    + now rewrite (IH Hb).
Qed.

Lemma remove_first_div_skip whole before rest :
  forallb other_child before = true ->
  remove_first_div eqv whole (before ++ rest)
  = remove_first_div eqv whole rest.
Proof.
  induction before as [|y before IH]; [reflexivity|]. cbn [forallb].
  intros H. apply andb_true_iff in H as [Hy Hb].
  cbn [app remove_first_div]. unfold other_child in Hy.
  destruct (subscript y "type") as [e|t]; [discriminate|].
  destruct (is_Div t); [discriminate|]. now apply IH.
Qed.

Lemma remove_first_div_found before d after :
  forallb other_child before = true -> div_child d = true ->
  remove_first_div eqv (before ++ d :: after) (before ++ d :: after)
  = inr (before ++ after).
Proof.
  intros Hb Hd. rewrite (remove_first_div_skip _ _ _ Hb).
  cbn [remove_first_div]. unfold div_child in Hd.
  destruct (subscript d "type") as [e|t] eqn:Es; [discriminate|].
  rewrite Hd. fold (div_child d) in Hd.
  rewrite list_remove_first_div; auto.
  unfold div_child. now rewrite Es.
Qed.

Lemma remove_first_div_none l :
  forallb other_child l = true -> remove_first_div eqv l l = inr l.
Proof.
  intros H. rewrite <- (app_nil_r l) at 2.
  now rewrite (remove_first_div_skip l l [] H).
Qed.

Lemma remove_first_div_bad before bad after e :
  forallb other_child before = true -> subscript bad "type" = inl e ->
  remove_first_div eqv (before ++ bad :: after) (before ++ bad :: after)
  = inl e.
Proof.
  intros Hb He. rewrite (remove_first_div_skip _ _ _ Hb).
  cbn [remove_first_div]. now rewrite He.
Qed.

Lemma place_new_div_list l new :
  l <> [] ->
  place_new_div eqv (PList l) new =
  match remove_first_div eqv l l with
  | inl e => inl e
  | inr l' => inr (Children (map Received l' ++ [Built new]))
  end.
Proof. destruct l; [congruence|reflexivity]. Qed.

Lemma filter_div_received l :
  List.length (filter is_div_component (map Received l))
  = List.length (filter div_child l).
Proof.
  induction l as [|j l IH]; [reflexivity|]. cbn.
  destruct (div_child j); cbn; now rewrite IH.
Qed.

Lemma filter_other_none l :
  forallb other_child l = true -> filter div_child l = [].
Proof.
  induction l as [|j l IH]; [reflexivity|]. cbn.
  intros H. apply andb_true_iff in H as [Hj Hl].
  now rewrite (other_is_not_div _ Hj), IH.
Qed.

(** After a successful update the tab has as many [Div] children as
    before, and one if it had none. *)
Lemma place_new_div_count l new cs :
  place_new_div eqv (PList l) new = inr (Children cs) ->
  List.length (filter is_div_component cs)
  = Nat.max 1 (List.length (filter div_child l)) /\
  exists kept, cs = map Received kept ++ [Built new].
Proof.
  intros H. assert (Hne : l <> []) by (intros ->; discriminate H).
  rewrite (place_new_div_list l new Hne) in H. revert H.
  destruct (children_cases l)
    as [H|[(b & d & a & E & Hb & Hd)|(b & x & a & e & E & Hb & He)]].
  - rewrite (remove_first_div_none _ H). intros [= <-]. split; [|eauto].
    rewrite filter_app, length_app, filter_div_received.
    now rewrite (filter_other_none _ H).
  - rewrite E, (remove_first_div_found _ _ _ Hb Hd). intros [= <-].
    split; [|eauto].
    rewrite !filter_app, !length_app, filter_div_received.
    rewrite !filter_app, !length_app. cbn [filter]. rewrite Hd.
    rewrite (filter_other_none _ Hb). cbn. lia.
  - rewrite E, (remove_first_div_bad _ _ _ _ Hb He). discriminate.
Qed.

End Children.

Section StructuralEquality.

Lemma str_eqb_eq a : forall b, str_eqb a b = true -> a = b.
Proof.
  induction a as [|c a IH]; intros [|d b]; cbn; try discriminate; auto.
  intros H. apply andb_true_iff in H as [Hc Hs].
  apply N.eqb_eq in Hc. subst. f_equal. auto.
Qed.

Lemma str_eqb_refl a : str_eqb a a = true.
Proof. induction a; cbn; [reflexivity|]. now rewrite N.eqb_refl. Qed.

Lemma pyval_eqb_eq a : forall b, pyval_eqb a b = true -> a = b.
Proof.
  induction a as [|x|x|x|l IH|d IH] using pyval_nested_ind;
    intros [|y|y|y|l'|d']; cbn; try discriminate; auto.
  - intros H. apply Bool.eqb_prop in H. now subst.
  - intros H. apply Z.eqb_eq in H. now subst.
  - intros H. apply str_eqb_eq in H. now subst.
  - intros H. f_equal. revert l' H.
    induction IH as [|v l Hv _ IHl]; intros [|v' l']; try discriminate; auto.
    intros H. apply andb_true_iff in H as [H1 H2].
    f_equal; [now apply Hv|now apply IHl].
  - intros H. f_equal. revert d' H.
    induction IH as [|[k v] d Hv _ IHd]; intros [|[k' v'] d'];
      try discriminate; auto.
    intros H. apply andb_true_iff in H as [H12 H3].
    apply andb_true_iff in H12 as [H1 H2].
    apply String.eqb_eq in H1. subst k'.
    f_equal; [f_equal; now apply Hv|now apply IHd].
Qed.

Lemma pyval_eqb_refl a : pyval_eqb a a = true.
Proof.
  induction a as [|x|x|x|l IH|d IH] using pyval_nested_ind; cbn; auto.
  - now destruct x.
  - apply Z.eqb_refl.
  - apply str_eqb_refl.
  - induction IH as [|v l Hv _ IHl]; [reflexivity|]. now rewrite Hv, IHl.
  - induction IH as [|[k v] d Hv _ IHd]; [reflexivity|].
    cbn [snd] in Hv. now rewrite String.eqb_refl, Hv, IHd.
Qed.

Lemma pyval_eqb_div a b : pyval_eqb a b = true -> div_child a = div_child b.
Proof. intros H. now rewrite (pyval_eqb_eq a b H). Qed.

End StructuralEquality.

(** X19.  When the tab has a [Div] child, the update takes away the first
    one and puts the new [Div] at the end; the other children keep their
    order.  The [Div] taken away is the first of the list whatever it
    holds. *)
Theorem new_div_replaces_first_div
        (eqv : pyval -> pyval -> bool)
        (eqv_refl : forall v, eqv v v = true)
        (eqv_div : forall a b, eqv a b = true -> div_child a = div_child b)
        before d after new :
  forallb other_child before = true -> div_child d = true ->
  place_new_div eqv (PList (before ++ d :: after)) new
  = inr (Children (map Received (before ++ after) ++ [Built new])).
Proof.
  intros Hb Hd. rewrite place_new_div_list by (now destruct before).
  now rewrite (remove_first_div_found eqv eqv_refl eqv_div _ _ _ Hb Hd).
Qed.

(** X20.  When the tab has children and none is a [Div], the new [Div] is
    put behind them; when it has no child, the new [Div] is returned
    alone. *)
Theorem new_div_is_appended_without_div
        (eqv : pyval -> pyval -> bool) l new :
  (l <> [] -> forallb other_child l = true ->
   place_new_div eqv (PList l) new
   = inr (Children (map Received l ++ [Built new]))) /\
  place_new_div eqv (PList []) new = inr (Single new) /\
  place_new_div eqv PNone new = inr (Single new).
Proof.
  repeat split. intros Hne H. rewrite place_new_div_list by exact Hne.
  now rewrite (remove_first_div_none eqv _ H).
Qed.

(** X21.  A child in front of every [Div] that is no dictionary, or a
    dictionary without ['type'], ends the update with [TypeError] or
    [KeyError]; nothing is returned. *)
Theorem untyped_child_ends_update
        (eqv : pyval -> pyval -> bool) before bad after e new :
  forallb other_child before = true -> subscript bad "type" = inl e ->
  place_new_div eqv (PList (before ++ bad :: after)) new = inl e.
Proof.
  intros Hb He. rewrite place_new_div_list by (now destruct before).
  now rewrite (remove_first_div_bad eqv _ _ _ _ Hb He).
Qed.

(** X22.  An update that succeeds on a list of children leaves the tab
    with as many [Div] children as it had, and with one if it had none;
    the new [Div] is its last child.  Starting with at most one [Div], the
    tab holds exactly one after every upload. *)
Theorem div_children_do_not_pile_up
        (eqv : pyval -> pyval -> bool)
        (eqv_refl : forall v, eqv v v = true)
        (eqv_div : forall a b, eqv a b = true -> div_child a = div_child b)
        l new cs :
  place_new_div eqv (PList l) new = inr (Children cs) ->
  List.length (filter is_div_component cs)
  = Nat.max 1 (List.length (filter div_child l)) /\
  exists kept, cs = map Received kept ++ [Built new].
Proof. apply (place_new_div_count eqv eqv_refl eqv_div). Qed.

Lemma new_div_replaces_first_div_witness :
  forallb other_child [sample_component "Upload" "Select File"] = true /\
  div_child (sample_component "Div" "old output") = true /\
  place_new_div pyval_eqb
    (PList ([sample_component "Upload" "Select File"]
            ++ sample_component "Div" "old output"
            :: [sample_component "Button" "Save Output"])) []
  = inr (Children
           (map Received ([sample_component "Upload" "Select File"]
                          ++ [sample_component "Button" "Save Output"])
            ++ [Built []])).
Proof.
  assert (H1 : forallb other_child
                       [sample_component "Upload" "Select File"] = true)
    by reflexivity.
  assert (H2 : div_child (sample_component "Div" "old output") = true)
    by reflexivity.
  split; [exact H1|]. split; [exact H2|].
  exact (new_div_replaces_first_div pyval_eqb pyval_eqb_refl pyval_eqb_div
                                    _ _ _ [] H1 H2).
Defined.

Lemma new_div_is_appended_without_div_witness :
  [sample_component "Upload" "Select File"] <> [] /\
  forallb other_child [sample_component "Upload" "Select File"] = true /\
  place_new_div pyval_eqb (PList [sample_component "Upload" "Select File"])
                []
  = inr (Children (map Received [sample_component "Upload" "Select File"]
                   ++ [Built []])).
Proof.
  assert (H1 : [sample_component "Upload" "Select File"] <> [])
    by discriminate.
  assert (H2 : forallb other_child
                       [sample_component "Upload" "Select File"] = true)
    by reflexivity.
  split; [exact H1|]. split; [exact H2|].
  exact (proj1 (new_div_is_appended_without_div pyval_eqb _ []) H1 H2).
Defined.

Lemma untyped_child_ends_update_witness :
  forallb other_child [sample_component "Upload" "Select File"] = true /\
  subscript (PStr (of_ascii "plain text")) "type" = inl TypeError /\
  place_new_div pyval_eqb
    (PList ([sample_component "Upload" "Select File"]
            ++ PStr (of_ascii "plain text")
            :: [sample_component "Div" "old output"])) []
  = inl TypeError.
Proof.
  assert (H1 : forallb other_child
                       [sample_component "Upload" "Select File"] = true)
    by reflexivity.
  assert (H2 : subscript (PStr (of_ascii "plain text")) "type"
               = inl TypeError) by reflexivity.
  split; [exact H1|]. split; [exact H2|].
  exact (untyped_child_ends_update pyval_eqb _ _ _ _ [] H1 H2).
Defined.

Lemma div_children_do_not_pile_up_witness :
  place_new_div pyval_eqb
    (PList [sample_component "Div" "old output";
            sample_component "Button" "Save Output"]) []
  = inr (Children [Received (sample_component "Button" "Save Output");
                   Built []]) /\
  List.length (filter is_div_component
                      [Received (sample_component "Button" "Save Output");
                       Built []])
  = Nat.max 1 (List.length
                 (filter div_child
                         [sample_component "Div" "old output";
                          sample_component "Button" "Save Output"])).
Proof.
  assert (H : place_new_div pyval_eqb
                (PList [sample_component "Div" "old output";
                        sample_component "Button" "Save Output"]) []
              = inr (Children
                       [Received (sample_component "Button" "Save Output");
                        Built []])) by reflexivity.
  split; [exact H|].
  exact (proj1 (div_children_do_not_pile_up pyval_eqb pyval_eqb_refl
                                            pyval_eqb_div _ _ _ H)).
Defined.

(** X23.  Every card of the new output shows a key of the section map as
    its header and, as its body, the string of that entry, a contiguous
    piece of the segmented text; no body comes from a [None]. *)
Theorem cards_show_pieces_of_text text c :
  In c (new_cards (get_partial_content text)) ->
  occurs (card_content c) text /\
  exists name,
    In (name, VStr (card_content c)) (get_partial_content text) /\
    card_title c = of_ascii name.
Proof.
  unfold new_cards. intros H. apply in_map_iff in H as ([name v] & <- & Hin).
  destruct (z_value_piece _ _ _ Hin) as (s & -> & Ho).
  cbn. split; [exact Ho|]. now exists name.
Qed.

Lemma cards_show_pieces_of_text_witness :
  In {| card_title := of_ascii "Document Footer Information";
        card_content := of_ascii "c" |}
     (new_cards (get_partial_content undated_report)) /\
  occurs (of_ascii "c") undated_report.
Proof.
  assert (H : In {| card_title := of_ascii "Document Footer Information";
                    card_content := of_ascii "c" |}
                 (new_cards (get_partial_content undated_report)))
    by (right; right; left; reflexivity).
  split; [exact H|].
  exact (proj1 (cards_show_pieces_of_text undated_report _ H)).
Defined.

(* ================================================================== *)
(** ** The text handed to the segmentation by the pathology tab *)

Section Wrapped.

Context {Image : Type} (caps : Capabilities Image).

Lemma occurs_length (m s : str) : occurs m s -> (List.length m <= List.length s)%nat.
Proof. intros (p & q & ->). rewrite !length_app. lia. Qed.

Lemma occurs_in_wrap m text : occurs m text -> occurs m (wrap text).
Proof.
  intros (p & q & ->). unfold wrap.
  exists (of_ascii "'" ++ [8235%N] ++ of_ascii "'" ++ p),
         (q ++ of_ascii "'" ++ [8236%N] ++ of_ascii "'").
  now rewrite <- !app_assoc.
Qed.

(** A phrase of two characters or more without an apostrophe occurs in the
    wrapped text only where it occurs in the text. *)
Lemma occurs_wrap_inv (m : str) text :
  ~ In 39%N m -> (2 <= List.length m)%nat ->
  occurs m (wrap text) -> occurs m text.
Proof.
  intros Hq Hl H.
  assert (Hshort : forall s, (List.length s < 2)%nat -> ~ occurs m s).
  { intros s Hs Ho. apply occurs_length in Ho. lia. }
  change (wrap text)
    with ([] ++ 39%N :: ([8235%N] ++ 39%N
                         :: (text ++ 39%N :: ([8236%N] ++ 39%N :: []))))
    in H.
  apply (occurs_across_char m _ _ _ Hq) in H as [H|H];
    [now apply Hshort in H; [|cbn; lia]|].
  apply (occurs_across_char m _ _ _ Hq) in H as [H|H];
    [now apply Hshort in H; [|cbn; lia]|].
  apply (occurs_across_char m _ _ _ Hq) in H as [H|H]; [exact H|].
  apply (occurs_across_char m _ _ _ Hq) in H as [H|H];
    now apply Hshort in H; [|cbn; lia].
Qed.

Lemma tab2_on_kept_text c name decoded pages :
  decode_upload caps c = ret decoded ->
  endswith (lower caps name) (of_ascii ".pdf") = true ->
  pdftotext_PDF caps decoded = Some pages ->
  needs_ocr (join (newline ++ newline) pages) = false ->
  update_output_tab2 caps (Some c) name
  = ([CallPdftotext],
     inr (get_partial_content (wrap (join (newline ++ newline) pages)))).
Proof.
  intros Hd Hn Hp Ho. unfold update_output_tab2.
  rewrite (upload_text_pdf caps c name decoded pages Hd Hn Hp).
  cbn zeta. rewrite Ho. reflexivity.
Qed.

Lemma slice_from_last s c : slice_from (s ++ [c]) (-1) = [c].
Proof.
  unfold slice_from, adjust, len. cbn [Z.ltb Z.compare].
  rewrite length_app. cbn [List.length].
  replace (Z.to_nat (Z.max 0 (-1 + Z.of_nat (List.length s + 1))))
    with (List.length s) by lia.
  apply skipn_app_exact.
Qed.

Lemma suffix_last (pre b x : str) c :
  b <> [] -> pre ++ b = x ++ [c] -> exists b', b = b' ++ [c].
Proof.
  intros Hb E. destruct (exists_last Hb) as (b' & d & ->).
  rewrite app_assoc in E. apply app_inj_tail in E as [_ ->]. now exists b'.
Qed.

End Wrapped.

(** The phrases the segmentation looks for. *)
Lemma phrase_shape (m : str) :
  In m (postfix_marker :: macro_marker :: diagnosis_marker
        :: prev_tests_marker :: clinical_info_marker :: prefix_options) ->
  ~ In 39%N m /\ (2 <= List.length m)%nat.
Proof.
  intros H. repeat (destruct H as [<-|H]; [split; [|cbn; lia]|]);
    try (destruct H);
    cbn; intros Hin; repeat (destruct Hin as [Hin|Hin]; [discriminate Hin|]);
    exact Hin.
Qed.

(** X24.  The marks [update_output_tab2] puts around the text neither make
    nor hide a phrase: each phrase the segmentation looks for occurs in the
    wrapped text exactly when it occurs in the extracted text. *)
Theorem wrapping_keeps_the_phrases text m :
  In m (postfix_marker :: macro_marker :: diagnosis_marker
        :: prev_tests_marker :: clinical_info_marker :: prefix_options) ->
  (occurs m (wrap text) <-> occurs m text).
Proof.
  intros H. destruct (phrase_shape m H) as [Hq Hl]. split.
  - now apply occurs_wrap_inv.
  - apply occurs_in_wrap.
Qed.

Lemma wrapping_keeps_the_phrases_witness :
  In postfix_marker
     (postfix_marker :: macro_marker :: diagnosis_marker
      :: prev_tests_marker :: clinical_info_marker :: prefix_options) /\
  (occurs postfix_marker (wrap clinical_report) <->
   occurs postfix_marker clinical_report).
Proof.
  assert (H : In postfix_marker
                 (postfix_marker :: macro_marker :: diagnosis_marker
                  :: prev_tests_marker :: clinical_info_marker
                  :: prefix_options)) by (left; reflexivity).
  split; [exact H|].
  exact (wrapping_keeps_the_phrases clinical_report postfix_marker H).
Defined.

(** X25.  A PDF whose native text is kept and holds none of the three
    "body begins" phrases gives the pathology tab two empty entries: no
    part of the text of the document is in the result. *)
Theorem unmarked_pdf_shows_nothing
        {Image} (caps : Capabilities Image) c name decoded pages :
  decode_upload caps c = ret decoded ->
  endswith (lower caps name) (of_ascii ".pdf") = true ->
  pdftotext_PDF caps decoded = Some pages ->
  needs_ocr (join (newline ++ newline) pages) = false ->
  (forall p, In p prefix_options ->
             ~ occurs p (join (newline ++ newline) pages)) ->
  update_output_tab2 caps (Some c) name
  = ([CallPdftotext],
     inr [("General Information"%string, VStr []);
          ("Document Footer Information"%string, VStr [])]).
Proof.
  intros Hd Hn Hp Ho Hnone.
  rewrite (tab2_on_kept_text caps c name decoded pages Hd Hn Hp Ho).
  do 2 f_equal. unfold get_partial_content, run_partial_content.
  rewrite split_header_none; [reflexivity|].
  intros p Hin H. apply (Hnone p Hin).
  apply (occurs_wrap_inv p); [| |exact H];
    apply (phrase_shape p); do 5 right; exact Hin.
Qed.

(** X26.  In the pathology tab, when a "body begins" phrase occurs in the
    extracted text and the print-date phrase does not, the footer entry is
    the closing apostrophe of the wrapping alone. *)
Theorem undated_pdf_footer_is_an_apostrophe text :
  (exists p, In p prefix_options /\ occurs p text) ->
  ~ occurs postfix_marker text ->
  get (get_partial_content (wrap text)) "Document Footer Information"
  = VStr (of_ascii "'") /\
  footer (run_partial_content (wrap text)) = of_ascii "'".
Proof.
  intros (p & Hin & Hp) Hdate.
  set (r := run_partial_content (wrap text)).
  assert (Hw : exists q, In q prefix_options /\ occurs q (wrap text)).
  { exists p. split; [exact Hin|now apply occurs_in_wrap]. }
  assert (Hnd : ~ occurs postfix_marker (body0 r)).
  { intros H. apply Hdate.
    apply (occurs_wrap_inv postfix_marker);
      [apply (phrase_shape postfix_marker); now left
      |apply (phrase_shape postfix_marker); now left|].
    eapply occurs_trans; [exact H|apply body0_in_text]. }
  destruct (footer_cut_without_marker (wrap text) Hnd) as (Hf & _).
  fold r in Hf.
  assert (Hne : body0 r <> []).
  { destruct (run_partial_content_shape (wrap text)) as (Hs & _).
    fold r in Hs.
    destruct (split_header_found (wrap text) prefix_options [] [] Hw)
      as (q & before & after & Hopts & _ & Hfind & E).
    rewrite E in Hs. injection Hs as _ Hb0.
    destruct (find_cut _ _ Hfind) as (_ & Hst & _). rewrite <- Hb0 in Hst.
    apply startswith_length in Hst. intros E0. rewrite E0 in Hst.
    assert (Hq : In q prefix_options)
      by (rewrite Hopts; apply in_or_app; right; now left).
    destruct Hq as [<-|[<-|[<-|[]]]]; cbn in Hst; lia. }
  destruct (body_in_text (wrap text)) as ([pre Et] & _). fold r in Et.
  assert (Ew : wrap text
               = (of_ascii "'" ++ [8235%N] ++ of_ascii "'" ++ text
                  ++ of_ascii "'" ++ [8236%N]) ++ [39%N]).
  { unfold wrap. now rewrite <- !app_assoc. }
  rewrite Ew in Et. symmetry in Et.
  destruct (suffix_last _ _ _ _ Hne Et) as (b' & Eb).
  rewrite Eb, slice_from_last in Hf.
  split; [|exact Hf].
  destruct (run_partial_content_shape (wrap text))
    as (_ & _ & _ & _ & Hparts & Hz).
  fold r in Hparts, Hz. unfold get_partial_content. fold r.
  rewrite Hz, Hparts, Hf. unfold get_pathology_body_parts.
  destruct (run_pathology_body_parts_shape (body r))
    as (_ & _ & _ & _ & _ & _ & _ & _ & ->).
  unfold entry.
  repeat match goal with
         | |- context [if ?c then _ else _] => destruct c
         end; reflexivity.
Qed.

(* ================================================================== *)
(** ** Instances of the further properties *)

Lemma pdftotext_failure_is_not_retried_by_ocr_witness :
  decode_upload (failing_caps None None) sample_upload = ret [] /\
  endswith (lower (failing_caps None None) (of_ascii "scan.pdf"))
           (of_ascii ".pdf") = true /\
  pdftotext_PDF (failing_caps None None) [] = None /\
  update_output_tab1 (failing_caps None None) (Some sample_upload)
                     (of_ascii "scan.pdf")
  = ([CallPdftotext], inl PdftotextError).
Proof.
  assert (H1 : decode_upload (failing_caps None None) sample_upload = ret [])
    by reflexivity.
  assert (H2 : endswith (lower (failing_caps None None) (of_ascii "scan.pdf"))
                        (of_ascii ".pdf") = true) by reflexivity.
  assert (H3 : pdftotext_PDF (failing_caps None None) [] = None)
    by reflexivity.
  split; [exact H1|]. split; [exact H2|]. split; [exact H3|].
  exact (proj1 (pdftotext_failure_is_not_retried_by_ocr
                  (failing_caps None None) sample_upload
                  (of_ascii "scan.pdf") [] H1 H2 H3)).
Defined.

Lemma ocr_stops_at_first_failing_page_witness :
  Forall2 (fun image o =>
             image_to_string (failing_caps None None) image "heb+eng"
             = Some o) [of_ascii "a"] [of_ascii "a"] /\
  image_to_string (failing_caps None None) [] "heb+eng" = None /\
  extract_text_from_images (failing_caps None None)
                           ([of_ascii "a"] ++ [] :: [of_ascii "b"])
  = ([CallTesseract; CallTesseract], inl TesseractError).
Proof.
  assert (H1 : Forall2 (fun image o =>
                          image_to_string (failing_caps None None) image
                                          "heb+eng" = Some o)
                       [of_ascii "a"] [of_ascii "a"])
    by (repeat constructor).
  assert (H2 : image_to_string (failing_caps None None) [] "heb+eng" = None)
    by reflexivity.
  split; [exact H1|]. split; [exact H2|].
  exact (ocr_stops_at_first_failing_page (failing_caps None None)
                                         _ _ [] [of_ascii "b"] H1 H2).
Defined.

Lemma rasterisation_failure_stops_ocr_witness :
  decode_upload (failing_caps (Some []) None) sample_upload = ret [] /\
  endswith (lower (failing_caps (Some []) None) (of_ascii "scan.pdf"))
           (of_ascii ".pdf") = true /\
  pdftotext_PDF (failing_caps (Some []) None) [] = Some [] /\
  needs_ocr (join (newline ++ newline) []) = true /\
  convert_from_bytes (failing_caps (Some []) None) [] = None /\
  update_output_tab1 (failing_caps (Some []) None) (Some sample_upload)
                     (of_ascii "scan.pdf")
  = ([CallPdftotext; CallPdf2image], inl Pdf2imageError).
Proof.
  assert (H1 : decode_upload (failing_caps (Some []) None) sample_upload
               = ret []) by reflexivity.
  assert (H2 : endswith (lower (failing_caps (Some []) None)
                               (of_ascii "scan.pdf"))
                        (of_ascii ".pdf") = true) by reflexivity.
  assert (H3 : pdftotext_PDF (failing_caps (Some []) None) [] = Some [])
    by reflexivity.
  assert (H4 : needs_ocr (join (newline ++ newline) []) = true)
    by reflexivity.
  assert (H5 : convert_from_bytes (failing_caps (Some []) None) [] = None)
    by reflexivity.
  split; [exact H1|]. split; [exact H2|]. split; [exact H3|].
  split; [exact H4|]. split; [exact H5|].
  exact (rasterisation_failure_stops_ocr (failing_caps (Some []) None)
           sample_upload (of_ascii "scan.pdf") [] [] H1 H2 H3 H4 H5).
Defined.

Lemma blank_native_text_goes_to_ocr_witness :
  decode_upload (sample_caps [of_ascii " "; []] [of_ascii "a"]) sample_upload
  = ret [] /\
  endswith (lower (sample_caps [of_ascii " "; []] [of_ascii "a"])
                  (of_ascii "scan.pdf")) (of_ascii ".pdf") = true /\
  pdftotext_PDF (sample_caps [of_ascii " "; []] [of_ascii "a"]) []
  = Some [of_ascii " "; []] /\
  Forall (fun page => forallb isspace page = true) [of_ascii " "; []] /\
  In CallPdf2image
     (log (update_output_tab1 (sample_caps [of_ascii " "; []] [of_ascii "a"])
                              (Some sample_upload) (of_ascii "scan.pdf"))).
Proof.
  assert (H1 : decode_upload (sample_caps [of_ascii " "; []] [of_ascii "a"])
                             sample_upload = ret []) by reflexivity.
  assert (H2 : endswith (lower (sample_caps [of_ascii " "; []] [of_ascii "a"])
                               (of_ascii "scan.pdf"))
                        (of_ascii ".pdf") = true) by reflexivity.
  assert (H3 : pdftotext_PDF (sample_caps [of_ascii " "; []] [of_ascii "a"])
                             [] = Some [of_ascii " "; []]) by reflexivity.
  assert (H4 : Forall (fun page => forallb isspace page = true)
                      [of_ascii " "; []]) by (repeat constructor).
  split; [exact H1|]. split; [exact H2|]. split; [exact H3|].
  split; [exact H4|].
  exact (proj1 (blank_native_text_goes_to_ocr
                  (sample_caps [of_ascii " "; []] [of_ascii "a"])
                  sample_upload (of_ascii "scan.pdf") [] _ H1 H2 H3 H4)).
Defined.



Lemma plain_page_unmarked p :
  In p prefix_options -> ~ occurs p (join (newline ++ newline) [plain_page]).
Proof.
  intros [<-|[<-|[<-|[]]]]; apply find_absent; reflexivity.
Qed.

Lemma unmarked_pdf_shows_nothing_witness :
  decode_upload (sample_caps [plain_page] []) sample_upload = ret [] /\
  endswith (lower (sample_caps [plain_page] []) (of_ascii "scan.pdf"))
           (of_ascii ".pdf") = true /\
  pdftotext_PDF (sample_caps [plain_page] []) [] = Some [plain_page] /\
  needs_ocr (join (newline ++ newline) [plain_page]) = false /\
  update_output_tab2 (sample_caps [plain_page] []) (Some sample_upload)
                     (of_ascii "scan.pdf")
  = ([CallPdftotext],
     inr [("General Information"%string, VStr []);
          ("Document Footer Information"%string, VStr [])]).
Proof.
  assert (H1 : decode_upload (sample_caps [plain_page] []) sample_upload
               = ret []) by reflexivity.
  assert (H2 : endswith (lower (sample_caps [plain_page] [])
                               (of_ascii "scan.pdf"))
                        (of_ascii ".pdf") = true) by reflexivity.
  assert (H3 : pdftotext_PDF (sample_caps [plain_page] []) []
               = Some [plain_page]) by reflexivity.
  assert (H4 : needs_ocr (join (newline ++ newline) [plain_page]) = false)
    by reflexivity.
  split; [exact H1|]. split; [exact H2|]. split; [exact H3|].
  split; [exact H4|].
  exact (unmarked_pdf_shows_nothing (sample_caps [plain_page] [])
           sample_upload (of_ascii "scan.pdf") [] [plain_page]
           H1 H2 H3 H4 plain_page_unmarked).
Defined.

Lemma undated_pdf_footer_is_an_apostrophe_witness :
  (exists p, In p prefix_options /\ occurs p undated_report) /\
  ~ occurs postfix_marker undated_report /\
  get (get_partial_content (wrap undated_report))
      "Document Footer Information" = VStr (of_ascii "'").
Proof.
  assert (H1 : exists p, In p prefix_options /\ occurs p undated_report).
  { exists prefix_clinical. split; [left; reflexivity|].
    exists [], (of_ascii "abc"). reflexivity. }
  assert (H2 : ~ occurs postfix_marker undated_report)
    by (apply find_absent; reflexivity).
  split; [exact H1|]. split; [exact H2|].
  exact (proj1 (undated_pdf_footer_is_an_apostrophe undated_report H1 H2)).
Defined.

(* ================================================================== *)
(** ** Reports that do not begin with the clinical information *)

(** C1 at a report whose body begins with the previous-tests phrase.  The
    phrase the outer split stops at and the phrase the inner segmentation
    looks for are different strings (they differ in the marks around the
    same words, as do the two diagnosis phrases, while the two
    clinical-information phrases are one string), so the inner search finds
    nothing: the map has the header and the footer only, the whole body is
    in no entry, and the values of the map do not give the text back. *)
Theorem previous_tests_report_loses_its_body :
  prefix_clinical = clinical_info_marker /\
  find prefix_prev_tests prev_tests_marker = -1 /\
  prefix_diagnosis = 8235%N :: diagnosis_marker /\
  get_partial_content previous_tests_report =
    [("General Information"%string, VStr (of_ascii "h"));
     ("Document Footer Information"%string,
      VStr (postfix_marker ++ of_ascii "f"))] /\
  residue previous_tests_report = prefix_prev_tests ++ of_ascii "abc" /\
  ~ reconstructs (get_partial_content previous_tests_report)
                 previous_tests_report.
Proof.
  split; [reflexivity|]. split; [reflexivity|]. split; [reflexivity|].
  split; [reflexivity|]. split; [reflexivity|].
  intros (pieces & Hv & Hc). vm_compute in Hv.
  destruct pieces as [|p1 [|p2 [|p3 ps]]]; try discriminate Hv.
  injection Hv as <- <-. vm_compute in Hc. discriminate Hc.
Qed.
